(** * Photon room webhooks of the PlayFab Cloud Script

    A shallow embedding of [cloudscript.js]: the webhook argument validator
    ([checkWebhookArgs]), the shared-group store adapter, the four room
    handlers ([RoomCreated], [RoomJoined], [RoomLeft], [RoomClosed]), the list
    of games ([GetGameList], [InitGameList]) and the player moves
    ([processPlayerMove], [RoomEventRaised]), followed by the properties of
    the room lifecycle that hold, or fail, on that code.

    The script is untyped JavaScript that reads arbitrary properties off the
    webhook arguments and off the records it gets back from the store, so the
    embedding keeps JavaScript values untyped as well: a property that is
    absent reads as [undefined], and reading a property of [undefined] throws
    a [TypeError], exactly where the script would. *)

From stdpp Require Import gmap strings list fin_maps pretty.
From Stdlib Require Import ZArith Lia Ascii.
Set Warnings "-register-all".

(** ** JavaScript values *)

(** Numbers are integers (actor numbers, counts, result codes) plus [NaN].
    A string is either a literal or the text [JSON.stringify] produced for a
    value; keeping the latter symbolic lets [JSON.parse] invert it without a
    parser. Objects are finite maps from property names to values. *)
Inductive val : Type :=
  | VUndef
  | VNull
  | VBool (b : bool)
  | VNum (n : Z)
  | VNaN
  | VStr (s : string)
  | VJson (v : val)
  | VObj (o : gmap string val)
  | VArr (l : list val).

(** The built-ins of the engine that are not computed here: the characters of
    a text made by [JSON.stringify], and the result of [JSON.parse] on a
    string that [JSON.stringify] did not make ([None] is a [SyntaxError]). *)
Record Engine := {
  JSON_text : val → string;
  JSON_parse_raw : string → option val
}.

Module PhotonException.
(** The object built by [new PhotonException(code, msg, timestamp, data)].
    [Timestamp] is [None] where the call site leaves the argument out. *)
Record t := {
  ResultCode : Z;
  Message : string;
  Timestamp : option string;
  Data : val
}.
End PhotonException.

(** What a [throw] carries: [e instanceof PhotonException], or any other
    value. *)
Inductive thrown :=
  | Photon (e : PhotonException.t)
  | Thrown (v : val).

(** An [Error] object as far as the script looks at it: [e.name] and
    [e.message]. *)
Definition errorObject (name message : string) : val :=
  VObj {[ "name" := VStr name; "message" := VStr message ]}.

Definition TypeError (message : string) : thrown :=
  Thrown (errorObject "TypeError" message).

Definition SyntaxError (message : string) : thrown :=
  Thrown (errorObject "SyntaxError" message).

(** [obj.k] on an object literal or a parsed record held in a variable. *)
Definition prop (o : gmap string val) (k : string) : val :=
  default VUndef (o !! k).

(** [undefinedOrNull], line 45. *)
Definition undefinedOrNull (variable : val) : bool :=
  match variable with
  | VUndef | VNull => true
  | _ => false
  end.

(** [isString], line 69. *)
Definition isString (obj : val) : bool :=
  match obj with
  | VStr _ | VJson _ => true
  | _ => false
  end.

(** Decimal digits, for numeric strings and array indices. *)
Definition digit (c : ascii) : option Z :=
  let n := Z.of_nat (nat_of_ascii c) in
  if ((48 <=? n) && (n <=? 57))%Z then Some (n - 48)%Z else None.

Fixpoint digits (s : string) (acc : Z) : option Z :=
  match s with
  | EmptyString => Some acc
  | String c s' =>
      match digit c with
      | Some d => digits s' (10 * acc + d)%Z
      | None => None
      end
  end.

(** [ToNumber] on a string, restricted to the integers of the model: the
    empty string is 0, an optionally signed run of digits is its value, and
    every other string is [NaN] ([None]). *)
Definition string_to_number (s : string) : option Z :=
  match s with
  | EmptyString => Some 0%Z
  | String "-" (String _ _ as t) => Z.opp <$> digits t 0
  | String "+" (String _ _ as t) => digits t 0
  | _ => digits s 0
  end.

(** The array index a property name denotes, if it is the canonical decimal
    form of a natural number. *)
Definition array_index (k : string) : option nat :=
  match string_to_number k with
  | Some z =>
      if ((0 <=? z)%Z && String.eqb (pretty z) k)%bool
      then Some (Z.to_nat z) else None
  | None => None
  end.

Section Values.
Context (js : Engine).

(** The characters of a string value. *)
Definition as_string (v : val) : option string :=
  match v with
  | VStr s => Some s
  | VJson x => Some (JSON_text js x)
  | _ => None
  end.

(** [ToString], as used by [+] with a string and by property keys. *)
Fixpoint to_string (v : val) : string :=
  match v with
  | VUndef => "undefined"
  | VNull => "null"
  | VBool true => "true"
  | VBool false => "false"
  | VNum n => pretty n
  | VNaN => "NaN"
  | VStr s => s
  | VJson x => JSON_text js x
  | VObj _ => "[object Object]"
  | VArr l =>
      String.concat ","
        (map (λ x, match x with
                   | VUndef | VNull => ""
                   | _ => to_string x
                   end) l)
  end.

(** [ToPrimitive]: objects and arrays become their string form. *)
Definition to_primitive (v : val) : val :=
  match v with
  | VObj _ | VArr _ => VStr (to_string v)
  | _ => v
  end.

(** [ToNumber]; [None] is [NaN]. *)
Definition to_number (v : val) : option Z :=
  match to_primitive v with
  | VUndef | VNaN => None
  | VNull => Some 0%Z
  | VBool b => Some (if b then 1 else 0)%Z
  | VNum n => Some n
  | p => string_to_number (to_string p)
  end.

(** [a === b]. Two objects are equal only if they are the same object; no
    comparison in the script has both operands drawn from one object, so
    objects and arrays compare unequal. *)
Definition strict_eq (a b : val) : bool :=
  match a, b with
  | VUndef, VUndef | VNull, VNull => true
  | VBool x, VBool y => Bool.eqb x y
  | VNum x, VNum y => (x =? y)%Z
  | _, _ =>
      match as_string a, as_string b with
      | Some s, Some t => String.eqb s t
      | _, _ => false
      end
  end.

(** [a !== b]. *)
Definition strict_ne (a b : val) : bool := negb (strict_eq a b).

(** [a > b] and [a <= b]: two strings compare by characters, anything else
    numerically, and a comparison with [NaN] is false. *)
Definition js_gt (a b : val) : bool :=
  match as_string (to_primitive a), as_string (to_primitive b) with
  | Some s, Some t => String.ltb t s
  | _, _ =>
      match to_number a, to_number b with
      | Some x, Some y => (y <? x)%Z
      | _, _ => false
      end
  end.

Definition js_le (a b : val) : bool :=
  match as_string (to_primitive a), as_string (to_primitive b) with
  | Some s, Some t => negb (String.ltb t s)
  | _, _ =>
      match to_number a, to_number b with
      | Some x, Some y => (x <=? y)%Z
      | _, _ => false
      end
  end.

(** [a + b]: concatenation if either side is a string, else addition. *)
Definition js_add (a b : val) : val :=
  let pa := to_primitive a in
  let pb := to_primitive b in
  if (isString pa || isString pb)%bool
  then VStr (to_string pa ++ to_string pb)
  else match to_number pa, to_number pb with
       | Some x, Some y => VNum (x + y)
       | _, _ => VNaN
       end.

(** The condition of [if (v)]. *)
Definition truthy (v : val) : bool :=
  match v with
  | VUndef | VNull | VNaN | VBool false => false
  | VNum n => negb (n =? 0)%Z
  | VStr s => negb (String.eqb s "")
  | VJson x => negb (String.eqb (JSON_text js x) "")
  | _ => true
  end.

(** [v[k]] for reading. Properties inherited from [Object.prototype] are
    not modelled: the names the script reads are none of them. *)
Definition get (v : val) (k : string) : thrown + val :=
  match v with
  | VUndef => inl (TypeError ("Cannot read property '" ++ k ++ "' of undefined"))
  | VNull => inl (TypeError ("Cannot read property '" ++ k ++ "' of null"))
  | VObj o => inr (prop o k)
  | VArr l =>
      inr (if String.eqb k "length" then VNum (Z.of_nat (length l))
           else match array_index k with
                | Some i => default VUndef (l !! i)
                | None => VUndef
                end)
  | VStr _ | VJson _ =>
      let s := to_string v in
      inr (if String.eqb k "length" then VNum (Z.of_nat (String.length s))
           else match array_index k with
                | Some i =>
                    match String.get i s with
                    | Some c => VStr (String c EmptyString)
                    | None => VUndef
                    end
                | None => VUndef
                end)
  | VBool _ | VNum _ | VNaN => inr VUndef
  end.

(** [v[k] = x] in strict mode; the result is [v] after the assignment. An
    index past the end of an array extends it; a name that is not an index
    adds nothing that [JSON.stringify] would keep. *)
Definition set (v : val) (k : string) (x : val) : thrown + val :=
  match v with
  | VUndef => inl (TypeError ("Cannot set property '" ++ k ++ "' of undefined"))
  | VNull => inl (TypeError ("Cannot set property '" ++ k ++ "' of null"))
  | VObj o => inr (VObj (<[k := x]> o))
  | VArr l =>
      inr (match array_index k with
           | Some i =>
               if decide (i < length l)%nat then VArr (<[i := x]> l)
               else VArr (l ++ replicate (i - length l) VUndef ++ [x])
           | None => v
           end)
  | _ => inl (TypeError ("Cannot create property '" ++ k ++ "' on " ++ to_string v))
  end.

(** Whether [k] is an index or the length of a sequence of [n] elements. *)
Definition sequence_key (n : nat) (k : string) : bool :=
  (String.eqb k "length"
   || match array_index k with
      | Some i => bool_decide (i < n)%nat
      | None => false
      end)%bool.

(** [delete v[k]] in strict mode; the result is [v] after the deletion. *)
Definition delete_prop (v : val) (k : string) : thrown + val :=
  match v with
  | VUndef | VNull => inl (TypeError "Cannot convert undefined or null to object")
  | VObj o => inr (VObj (delete k o))
  | VArr l =>
      if String.eqb k "length"
      then inl (TypeError ("Cannot delete property '" ++ k ++ "' of [object Array]"))
      else inr (match array_index k with
                | Some i => VArr (<[i := VUndef]> l)
                | None => v
                end)
  | VStr _ | VJson _ =>
      if sequence_key (String.length (to_string v)) k
      then inl (TypeError ("Cannot delete property '" ++ k ++ "' of [object String]"))
      else inr v
  | _ => inr v
  end.

(** [v.hasOwnProperty(k)]. *)
Definition hasOwnProperty (v : val) (k : string) : thrown + bool :=
  match v with
  | VUndef => inl (TypeError "Cannot read property 'hasOwnProperty' of undefined")
  | VNull => inl (TypeError "Cannot read property 'hasOwnProperty' of null")
  | VObj o => inr (bool_decide (is_Some (o !! k)))
  | VArr l => inr (sequence_key (length l) k)
  | VStr _ | VJson _ => inr (sequence_key (String.length (to_string v)) k)
  | _ => inr false
  end.

(** [Object.keys(v).length]. *)
Definition keys_length (v : val) : thrown + val :=
  match v with
  | VUndef | VNull => inl (TypeError "Cannot convert undefined or null to object")
  | VObj o => inr (VNum (Z.of_nat (size o)))
  | VArr l => inr (VNum (Z.of_nat (length l)))
  | VStr _ | VJson _ => inr (VNum (Z.of_nat (String.length (to_string v))))
  | _ => inr (VNum 0)
  end.

(** What [JSON.parse(JSON.stringify(v))] gives back: properties holding
    [undefined] are dropped, [undefined] and [NaN] in an array become
    [null]. *)
Fixpoint json_norm (v : val) : val :=
  match v with
  | VNaN => VNull
  | VObj o =>
      VObj (omap (λ x, match x with
                       | VUndef => None
                       | _ => Some (json_norm x)
                       end) o)
  | VArr l =>
      VArr (map (λ x, match x with
                      | VUndef => VNull
                      | _ => json_norm x
                      end) l)
  | _ => v
  end.

(** [JSON.stringify(v)] for a value that is neither [undefined] nor a
    function. *)
Definition JSON_stringify (v : val) : val := VJson v.

(** [JSON.parse(v)]; [None] is a [SyntaxError]. *)
Definition JSON_parse (v : val) : option val :=
  match v with
  | VJson x => Some (json_norm x)
  | _ => JSON_parse_raw js (to_string v)
  end.

End Values.

(** ** The host: store, clock, caller *)

(** The shared-group store and the title data behind the [server] object.
    A shared group maps keys to strings; title data maps keys to strings. *)
Record World := {
  groups : gmap string (gmap string val);
  titleData : gmap string val
}.

(** What the host injects into one invocation of a handler. *)
Record Host := {
  currentPlayerId : val;   (* the authenticated caller; undefined for RoomClosed *)
  now : string;            (* (new Date()).toISOString() *)
  random : string;         (* Math.random(), as it prints *)
  script_titleId : val;
  script_version : val;
  script_revision : val;
  server_version : val
}.

(** Computations that read and write the store and may throw. Writes made
    before a [throw] stay made. *)
Definition M (A : Type) : Type := World → (thrown + A) * World.

Global Instance M_ret : MRet M := λ A a w, (inr a, w).

Global Instance M_bind : MBind M := λ A B k c w,
  match c w with
  | (inr a, w') => k a w'
  | (inl e, w') => (inl e, w')
  end.

Definition throw {A} (e : thrown) : M A := λ w, (inl e, w).

(** A pure expression that may throw. *)
Definition liftE {A} (r : thrown + A) : M A := λ w, (r, w).

(** [try { body } catch (e) { handler }]. *)
Definition try_catch {A} (body : M A) (handler : thrown → M A) : M A := λ w,
  match body w with
  | (inr a, w') => (inr a, w')
  | (inl e, w') => handler e w'
  end.

(** [if (c) { t }] with no else. *)
Definition when (c : bool) (t : M unit) : M unit :=
  if c then t else mret tt.

(** *** The [server] API

    The store is reliable: a call fails only where PlayFab documents it to,
    on a shared group that does not exist or, for creation, that already
    does. The error object has the shape the script itself tests for on
    line 387, [e.Error.error]. *)
Definition apiError (code : string) : thrown :=
  Thrown (VObj {[ "Error" := VObj {[ "error" := VStr code ]} ]}).

Definition server_CreateSharedGroup (id : string) : M unit := λ w,
  match groups w !! id with
  | Some _ => (inl (apiError "InvalidSharedGroupId"), w)
  | None => (inr tt, {| groups := <[id := ∅]> (groups w); titleData := titleData w |})
  end.

(** One key of an update: [null] removes the key, a string replaces it, and
    a key that is absent or [undefined] in the request is left alone. *)
Definition updateKey (new old : option val) : option val :=
  match new with
  | Some VNull => None
  | Some v => if isString v then Some v else old
  | None => old
  end.

Definition server_UpdateSharedGroupData (id : string) (data : gmap string val) : M unit := λ w,
  match groups w !! id with
  | None => (inl (apiError "InvalidSharedGroupId"), w)
  | Some g =>
      (inr tt, {| groups := <[id := merge updateKey data g]> (groups w);
                  titleData := titleData w |})
  end.

(** The [Value] of every requested key that exists; all keys if [keys] is
    left out. *)
Definition server_GetSharedGroupData (id : string) (keys : option (list string))
    : M (gmap string val) := λ w,
  match groups w !! id with
  | None => (inl (apiError "InvalidSharedGroupId"), w)
  | Some g =>
      (inr match keys with
           | None => g
           | Some ks => filter (λ kv, kv.1 ∈ ks) g
           end, w)
  end.

Definition server_DeleteSharedGroup (id : string) : M unit := λ w,
  match groups w !! id with
  | None => (inl (apiError "InvalidSharedGroupId"), w)
  | Some _ => (inr tt, {| groups := delete id (groups w); titleData := titleData w |})
  end.

Definition server_SetTitleData (key : string) (value : val) : M unit := λ w,
  (inr tt, {| groups := groups w; titleData := <[key := value]> (titleData w) |}).

(** What a [catch (e)] block sees of the value it caught. *)
Definition caught (e : thrown) : val :=
  match e with
  | Photon p =>
      VObj {[ "ResultCode" := VNum (PhotonException.ResultCode p);
              "Message" := VStr (PhotonException.Message p);
              "Timestamp" := from_option VStr VUndef (PhotonException.Timestamp p);
              "Data" := PhotonException.Data p ]}
  | Thrown v => v
  end.

(** The [{ ResultCode, Message, State }] object a room handler returns. *)
Record Response := {
  ResultCode : Z;
  Message : string;
  State : option val
}.

(** [LeaveReason], line 179. *)
Definition LeaveReason : gmap string val :=
  list_to_map
    [ ("ClientDisconnect", VStr "0"); ("ClientTimeoutDisconnect", VStr "1");
      ("ManagedDisconnect", VStr "2"); ("ServerDisconnect", VStr "3");
      ("TimeoutDisconnect", VStr "4"); ("ConnectTimeout", VStr "5");
      ("SwitchRoom", VStr "100"); ("LeaveRequest", VStr "101");
      ("PlayerTtlTimedOut", VStr "102"); ("PeerLastTouchTimedout", VStr "103");
      ("PluginRequest", VStr "104"); ("PluginFailedJoin", VStr "105") ].

(** ** The script *)

Section Script.
Context (js : Engine) (h : Host).

Local Abbreviation to_string := (to_string js).
Local Abbreviation strict_eq := (strict_eq js).
Local Abbreviation strict_ne := (strict_ne js).
Local Abbreviation get := (get js).

Definition GAMES_LIST_SUFFIX : string := "_GamesList".

(** Line 39. *)
Definition getGamesListId (playerId : val) : string :=
  to_string playerId ++ GAMES_LIST_SUFFIX.

(** Line 60. *)
Definition createSharedGroup (id : val) : M unit :=
  server_CreateSharedGroup (to_string id).

(** The body of the loop of line 78, for one property of [data]. *)
Definition encodeField (v : val) : val :=
  if (negb (undefinedOrNull v) && negb (isString v))%bool
  then JSON_stringify v else v.

(** Line 74. The loop overwrites the properties of [data] itself, so the
    caller's object holds the encoded strings afterwards; the result is
    that object. *)
Definition updateSharedGroupData (id : val) (data : gmap string val)
    : M (gmap string val) :=
  let data := encodeField <$> data in
  server_UpdateSharedGroupData (to_string id) data;;
  mret data.

(** Line 89. *)
Definition getSharedGroupData (id : val) (keys : option (list val))
    : M (gmap string val) :=
  data ← server_GetSharedGroupData (to_string id) (map to_string <$> keys);
  if decide (map_Forall (λ _ v, is_Some (JSON_parse js v)) data)
  then mret (omap (JSON_parse js) data)
  else throw (SyntaxError "Unexpected token in JSON").

(** Line 109. *)
Definition deleteSharedGroup (id : val) : M unit :=
  server_DeleteSharedGroup (to_string id).

(** Line 118. *)
Definition getSharedGroupEntry (id : val) (key : val) : M (gmap string val) :=
  getSharedGroupData id (Some [key]).

(** Line 127. *)
Definition updateSharedGroupEntry (id : val) (key : val) (value : val) : M unit :=
  let data : gmap string val := {[ to_string key := value ]} in
  updateSharedGroupData id data;;
  mret tt.

(** Line 138. *)
Definition deleteSharedGroupEntry (id : val) (key : val) : M unit :=
  updateSharedGroupEntry id key VNull.

(** Line 147. *)
Definition getISOTimestamp : string := now h.

(** Line 156. The key is [timestamp + Math.random()]: a concatenation when
    the timestamp is a string, and [NaN] when it was left out. *)
Definition logException (timestamp : option string) (data : val) (message : string)
    : M unit :=
  server_SetTitleData
    (match timestamp with
     | Some t => t ++ random h
     | None => "NaN"
     end)
    (JSON_stringify (VObj {[ "Message" := VStr message; "Data" := data ]})).

(** [new PhotonException(code, msg, timestamp, data)], line 166. *)
Definition new_PhotonException (code : Z) (msg : string)
    (timestamp : option string) (data : val) : M PhotonException.t :=
  logException timestamp data msg;;
  mret {| PhotonException.ResultCode := code;
          PhotonException.Message := msg;
          PhotonException.Timestamp := timestamp;
          PhotonException.Data := data |}.

(** [throw new PhotonException(...)]. *)
Definition throw_new {A} (code : Z) (msg : string)
    (timestamp : option string) (data : val) : M A :=
  e ← new_PhotonException code msg timestamp data;
  throw (Photon e).

(** Line 184. *)
Definition checkWebhookArgs (args : gmap string val) (timestamp : string) : M unit :=
  let msg := "Missing argument: " in
  let fail (code : Z) (m : string) : M unit :=
    throw_new code m (Some timestamp) (VObj args) in
  when (undefinedOrNull (prop args "AppId")) (fail 1%Z (msg +:+ "AppId"));;
  when (undefinedOrNull (prop args "AppVersion")) (fail 1%Z (msg +:+ "AppVersion"));;
  when (undefinedOrNull (prop args "Region")) (fail 1%Z (msg +:+ "Region"));;
  when (undefinedOrNull (prop args "GameId")) (fail 1%Z (msg +:+ "GameId"));;
  when (undefinedOrNull (prop args "Type")) (fail 1%Z (msg +:+ "Type"));;
  (if (strict_ne (prop args "Type") (VStr "Close")
       && strict_ne (prop args "Type") (VStr "Save"))%bool
   then
     when (undefinedOrNull (prop args "ActorNr")) (fail 1%Z (msg +:+ "ActorNr"));;
     when (undefinedOrNull (prop args "UserId")) (fail 1%Z (msg +:+ "UserId"));;
     when (strict_ne (prop args "UserId") (currentPlayerId h))
       (fail 3%Z ("currentPlayerId=" +:+ to_string (currentPlayerId h)
                +:+ " does not match UserId"));;
     when (undefinedOrNull (prop args "Username")
           && undefinedOrNull (prop args "Nickname"))
       (fail 1%Z (msg +:+ "Username/Nickname"))
   else
     when (undefinedOrNull (prop args "ActorCount")) (fail 1%Z (msg +:+ "ActorCount"));;
     if undefinedOrNull (prop args "State2") then mret tt else
     ActorList ← liftE (get (prop args "State2") "ActorList");
     if undefinedOrNull ActorList then mret tt else
     length ← liftE (get ActorList "length");
     when (strict_ne length (prop args "ActorCount"))
       (fail 2%Z "ActorCount does not match ActorList.count"));;
  if strict_eq (prop args "Type") (VStr "Load") then
    when (undefinedOrNull (prop args "CreateIfNotExists"))
      (fail 1%Z (msg +:+ "CreateIfNotExists"))
  else if strict_eq (prop args "Type") (VStr "Create") then
    when (undefinedOrNull (prop args "CreateOptions")) (fail 1%Z (msg +:+ "CreateOptions"));;
    when (strict_ne (prop args "ActorNr") (VNum 1))
      (fail 2%Z "ActorNr != 1 and Type == Create")
  else if strict_eq (prop args "Type") (VStr "Join") then
    mret tt
  else if strict_eq (prop args "Type") (VStr "Player") then
    when (undefinedOrNull (prop args "TargetActor")) (fail 1%Z (msg +:+ "TargetActor"));;
    when (undefinedOrNull (prop args "Properties")) (fail 1%Z (msg +:+ "Properties"));;
    when (negb (undefinedOrNull (prop args "Username"))
          && undefinedOrNull (prop args "State"))
      (fail 1%Z (msg +:+ "State"))
  else if strict_eq (prop args "Type") (VStr "Game") then
    when (undefinedOrNull (prop args "Properties")) (fail 1%Z (msg +:+ "Properties"));;
    when (negb (undefinedOrNull (prop args "Username"))
          && undefinedOrNull (prop args "State"))
      (fail 1%Z (msg +:+ "State"))
  else if strict_eq (prop args "Type") (VStr "Event") then
    when (undefinedOrNull (prop args "Data")) (fail 1%Z (msg +:+ "Data"));;
    when (negb (undefinedOrNull (prop args "Username"))
          && undefinedOrNull (prop args "State"))
      (fail 1%Z (msg +:+ "State"))
  else if strict_eq (prop args "Type") (VStr "Save") then
    when (undefinedOrNull (prop args "State")) (fail 1%Z (msg +:+ "State"));;
    when (js_le js (prop args "ActorCount") (VNum 0))
      (fail 2%Z "ActorCount <= 0 and Type == Save")
  else if strict_eq (prop args "Type") (VStr "Close") then
    when (strict_ne (prop args "ActorCount") (VNum 0))
      (fail 2%Z "ActorCount != 0 and Type == Close")
  else if strict_eq (prop args "Type") (VStr "Leave") then
    fail 2%Z "Deprecated forward plugin webhook!"
  else if bool_decide (is_Some (LeaveReason !! to_string (prop args "Type"))) then
    when (undefinedOrNull (prop args "IsInactive")) (fail 1%Z (msg +:+ "IsInactive"));;
    when (undefinedOrNull (prop args "Reason")) (fail 1%Z (msg +:+ "Reason"));;
    when (strict_ne (prop LeaveReason (to_string (prop args "Type"))) (prop args "Reason"))
      (fail 2%Z "Reason code does not match Leave Type string");;
    when (existsb (strict_eq (prop args "Reason"))
            [VStr "1"; VStr "100"; VStr "103"; VStr "105"])
      (fail 2%Z "Unexpected LeaveReason")
  else
    throw_new 2 ("Unexpected Type:" ++ to_string (prop args "Type")) None VUndef.

(** [v[k].f = x]: the property [f] of the object held in [v[k]] is assigned,
    and [v] holds that same object afterwards. *)
Definition set_in (v : val) (k f : string) (x : val) : thrown + val :=
  match get v k with
  | inl e => inl e
  | inr a =>
      match set js a f x with
      | inl e => inl e
      | inr a' =>
          inr match set js v k a' with
              | inr v' => v'
              | inl _ => v
              end
      end
  end.

(** [if (undefinedOrNull(data.k)) { data.k = {}; } data.k[timestamp] = entry],
    the way every handler appends to one of its event logs. *)
Definition appendEvent (data : gmap string val) (k timestamp : string) (entry : val)
    : M (gmap string val) :=
  let data :=
    if undefinedOrNull (prop data k) then <[k := VObj ∅]> data else data in
  events ← liftE (set js (prop data k) timestamp entry);
  mret (<[k := events]> data).

(** The [catch (e)] block shared by the four room handlers, e.g. line 453. *)
Definition catcher (e : thrown) : M Response :=
  match e with
  | Photon p =>
      mret {| ResultCode := PhotonException.ResultCode p;
              Message := PhotonException.Message p;
              State := None |}
  | Thrown v =>
      name ← liftE (get v "name");
      message ← liftE (get v "message");
      mret {| ResultCode := -1;
              Message := to_string name ++ ": " ++ to_string message;
              State := None |}
  end.

Definition OK : Response :=
  {| ResultCode := 0; Message := "OK"; State := None |}.

(** Line 380. *)
Definition onGameCreated (args : gmap string val) (timestamp : string) : M val :=
  msg ← try_catch
           (createSharedGroup (prop args "GameId");; mret "")
           (λ e,
              Error ← liftE (get (caught e) "Error");
              if undefinedOrNull Error then mret "game error" else
              error ← liftE (get Error "error");
              if strict_eq error (VStr "InvalidSharedGroupId")
              then mret "game already exists."
              else mret "game error");
  let data : gmap string val :=
    {[ "Env" :=
         VObj {[ "Region" := prop args "Region";
                 "AppVersion" := prop args "AppVersion";
                 "AppId" := prop args "AppId";
                 "TitleId" := script_titleId h;
                 "CloudScriptVersion" := script_version h;
                 "CloudScriptRevision" := script_revision h;
                 "PlayFabServerVersion" := server_version h;
                 "WebhooksVersion" :=
                   VStr (if undefinedOrNull (prop args "Nickname")
                         then "1.0" else "1.2") ]};
       "RoomOptions" := prop args "CreateOptions";
       "Creation" :=
         VObj {[ "Timestamp" := VStr timestamp;
                 "UserId" := prop args "UserId";
                 "Type" := prop args "Type" ]};
       "Actors" :=
         VObj {[ "1" := VObj {[ "UserId" := prop args "UserId";
                                "Inactive" := VBool false ]} ]};
       "NextActorNr" := VNum 2 ]} in
  data ← updateSharedGroupData (prop args "GameId") data;
  updateSharedGroupEntry (VStr (getGamesListId (currentPlayerId h)))
    (prop args "GameId") (VObj data);;
  mret (VObj {[ "ReturnCode" := VNum 0; "Message" := VStr msg ]}).

(** Line 420. The [log.debug] calls write nothing the script reads back;
    only what evaluating their argument can throw is kept, here
    [args.CreateOptions.MaxPlayers], which stands before the [try]. *)
Definition RoomCreated (args : gmap string val) : M Response :=
  liftE (get (prop args "CreateOptions") "MaxPlayers");;
  try_catch
    (let timestamp := getISOTimestamp in
     checkWebhookArgs args timestamp;;
     if strict_eq (prop args "Type") (VStr "Create") then
       onGameCreated args timestamp;;
       mret OK
     else if strict_eq (prop args "Type") (VStr "Load") then
       data ← getSharedGroupEntry (VStr (getGamesListId (currentPlayerId h)))
                (prop args "GameId");
       creator ← liftE (get (prop data "Creation") "UserId");
       data ← (if strict_ne creator (currentPlayerId h)
               then getSharedGroupEntry (VStr (getGamesListId creator))
                      (prop args "GameId")
               else mret data);
       if undefinedOrNull (prop data "State") then
         if strict_eq (prop args "CreateIfNotExists") (VBool false) then
           throw_new 5 ("Room=" ++ to_string (prop args "GameId") ++ " not found")
             (Some timestamp) (VObj args)
         else
           onGameCreated args timestamp;;
           mret {| ResultCode := 0; Message := "OK"; State := Some (VStr "") |}
       else
         data ← appendEvent data "LoadEvents" timestamp
                  (VObj {[ "ActorNr" := prop args "ActorNr";
                           "UserId" := prop args "UserId" ]});
         createSharedGroup (prop args "GameId");;
         data ← updateSharedGroupData (prop args "GameId") data;
         mret {| ResultCode := 0; Message := "OK";
                 State := Some (prop data "State") |}
     else
       throw_new 2 ("Wrong PathCreate Type=" ++ to_string (prop args "Type"))
         (Some timestamp) (VObj {[ "Webhook" := VObj args ]}))
    catcher.

(** Line 462. *)
Definition RoomJoined (args : gmap string val) : M Response :=
  try_catch
    (let timestamp := getISOTimestamp in
     let ActorNr := to_string (prop args "ActorNr") in
     let context (data : gmap string val) : val :=
       VObj {[ "Webhook" := VObj args; "CustomState" := VObj data ]} in
     checkWebhookArgs args timestamp;;
     data ← getSharedGroupData (prop args "GameId") None;
     when (strict_ne (prop args "Type") (VStr "Join"))
       (throw_new 2 ("Wrong PathJoin Type=" ++ to_string (prop args "Type"))
          (Some timestamp) (context data));;
     PlayerTTL ← liftE (get (prop data "RoomOptions") "PlayerTTL");
     data ←
       (if (strict_ne PlayerTTL (VNum 0)
            && js_gt js (prop data "NextActorNr") (prop args "ActorNr"))%bool
        then
          active ← liftE (get (prop data "ActiveActors") ActorNr);
          Inactive ← liftE (get active "Inactive");
          if strict_eq Inactive (VBool false) then
            throw_new 2 "Actor is already joined" (Some timestamp) (context data)
          else
            CheckUserOnJoin ← liftE (get (prop data "RoomOptions") "CheckUserOnJoin");
            actor ← liftE (get (prop data "Actors") ActorNr);
            UserId ← liftE (get actor "UserId");
            data ←
              (if (strict_eq CheckUserOnJoin (VBool true)
                   && strict_ne (prop args "UserId") UserId)%bool
               then
                 throw_new 2 "Illegal rejoin with different UserId"
                   (Some timestamp) (context data)
               else if strict_ne (prop args "UserId") UserId then
                 Actors ← liftE (set_in (prop data "Actors") ActorNr "UserId"
                                   (prop args "UserId"));
                 mret (<["Actors" := Actors]> data)
               else mret data);
            Actors ← liftE (set_in (prop data "Actors") ActorNr "Inactive"
                              (VBool false));
            mret (<["Actors" := Actors]> data)
        else if strict_eq (prop data "NextActorNr") (prop args "ActorNr") then
          count ← liftE (keys_length js (prop data "Actors"));
          MaxPlayers ← liftE (get (prop args "RoomOptions") "MaxPlayers");
          when (strict_eq count MaxPlayers)
            (throw_new 2 "Actors overflow" (Some timestamp) (context data));;
          Actors ← liftE (set js (prop data "Actors") ActorNr
                            (VObj {[ "UserId" := prop args "UserId";
                                     "Inactive" := VBool false ]}));
          mret (<["NextActorNr" := js_add js (prop data "NextActorNr") (VNum 1)]>
                  (<["Actors" := Actors]> data))
        else
          throw_new 2 "Unexpected ActorNr" (Some timestamp) (context data));
     data ← appendEvent data "JoinEvents" timestamp
              (VObj {[ "ActorNr" := prop args "ActorNr";
                       "UserId" := prop args "UserId" ]});
     data ← updateSharedGroupData (prop args "GameId") data;
     updateSharedGroupEntry (VStr (getGamesListId (currentPlayerId h)))
       (prop args "GameId")
       (VObj {[ "Env" := prop data "Env";
                "Creation" := prop data "Creation";
                "ActorNr" := prop args "ActorNr" ]});;
     mret OK)
    catcher.

(** Line 509. *)
Definition RoomLeft (args : gmap string val) : M Response :=
  try_catch
    (let timestamp := getISOTimestamp in
     let ActorNr := to_string (prop args "ActorNr") in
     let context (data : gmap string val) : val :=
       VObj {[ "Webhook" := VObj args; "CustomState" := VObj data ]} in
     checkWebhookArgs args timestamp;;
     data ← getSharedGroupData (prop args "GameId") None;
     when (negb (bool_decide (is_Some (LeaveReason !! to_string (prop args "Type")))))
       (throw_new 2 ("Wrong PathLeave Type=" ++ to_string (prop args "Type"))
          (Some timestamp) (context data));;
     present ← liftE (hasOwnProperty js (prop data "Actors") ActorNr);
     when (negb present)
       (throw_new 2 "No ActorNr inside the room" (Some timestamp) (context data));;
     stale ←
       (if strict_ne (prop args "Type") (prop LeaveReason "PlayerTtlTimedOut") then
          actor ← liftE (get (prop data "Actors") ActorNr);
          Inactive ← liftE (get actor "Inactive");
          mret (strict_eq Inactive (VBool true))
        else mret false);
     when stale
       (throw_new 2 "Inactive actors cant leave" (Some timestamp) (context data));;
     actor ← liftE (get (prop data "Actors") ActorNr);
     UserId ← liftE (get actor "UserId");
     when (strict_ne UserId (prop args "UserId"))
       (throw_new 2 "Leaving UserId is different from joined"
          (Some timestamp) (context data));;
     data ←
       (if truthy js (prop args "Inactive") then
          Actors ← liftE (set_in (prop data "Actors") ActorNr "Inactive" (VBool true));
          mret (<["Actors" := Actors]> data)
        else
          Actors ← liftE (delete_prop js (prop data "Actors") ActorNr);
          deleteSharedGroupEntry (VStr (getGamesListId (currentPlayerId h)))
            (prop args "GameId");;
          mret (<["Actors" := Actors]> data));
     data ← appendEvent data "LeaveEvents" timestamp
              (VObj {[ "ActorNr" := prop args "ActorNr";
                       "UserId" := prop args "UserId";
                       "CanRejoin" := prop args "Inactive" ]});
     updateSharedGroupData (prop args "GameId") data;;
     mret OK)
    catcher.

(** Line 553. *)
Definition RoomClosed (args : gmap string val) : M Response :=
  try_catch
    (let timestamp := getISOTimestamp in
     let context (data : gmap string val) : val :=
       VObj {[ "Webhook" := VObj args; "CustomState" := VObj data ]} in
     checkWebhookArgs args timestamp;;
     data ← getSharedGroupData (prop args "GameId") None;
     count ← liftE (keys_length js (prop data "Actors"));
     when (strict_ne count (prop args "ActorCount"))
       (throw_new 6 "Actors count does not match" (Some timestamp) (context data));;
     (if strict_eq (prop args "Type") (VStr "Close") then
        creator ← liftE (get (prop data "Creation") "UserId");
        deleteSharedGroupEntry (VStr (getGamesListId creator)) (prop args "GameId")
      else if strict_eq (prop args "Type") (VStr "Save") then
        data ← appendEvent data "SaveEvents" timestamp
                 (VObj {[ "ActorCount" := prop args "ActorCount" ]});
        let data := <["State" := prop args "State"]> data in
        creator ← liftE (get (prop data "Creation") "UserId");
        updateSharedGroupEntry (VStr (getGamesListId creator))
          (prop args "GameId") (VObj data)
      else
        throw_new 2 ("Wrong PathClose Type=" ++ to_string (prop args "Type"))
          (Some timestamp) (context data));;
     deleteSharedGroup (prop args "GameId");;
     mret OK)
    catcher.

End Script.

(** ** The list of games and the player moves

    The rest of the script that works on state of its own: the web RPC that
    lists a player's games, the handler that initialises the list, and the
    move cooldown. *)

(** The order in which [for (key in o)] visits the own keys of [o] is the
    engine's; all that is known of it is that every key comes once. *)
Record Enumeration := {
  forIn : list string → list string;
  forIn_keys l : forIn l ≡ₚ l
}.

(** [for (key in o) { if (o.hasOwnProperty(key)) { body } }], the keys given
    in the order of the visit. *)
Fixpoint forEach {S : Type} (body : string → S → M S) (keys : list string) (s : S)
    : M S :=
  match keys with
  | [] => mret s
  | key :: keys => s ← body key s; forEach body keys s
  end.

(** The [{ ResultCode, Message }] object literal. *)
Definition reply (code : Z) (message : string) : val :=
  VObj {[ "ResultCode" := VNum code; "Message" := VStr message ]}.

(** The [{ ResultCode: 0, Data: data }] object literal. *)
Definition listing (data : gmap string val) : val :=
  VObj {[ "ResultCode" := VNum 0; "Data" := VObj data ]}.

Section GameList.
Context (js : Engine) (h : Host) (order : Enumeration).

(** Line 304. [GetGameList] calls it with one argument, so [timestamp] is
    [None] there. *)
Definition checkWebRpcArgs (args : gmap string val) (timestamp : option string)
    : M unit :=
  let msg := "Missing argument: " in
  let fail (code : Z) (m : string) : M unit :=
    throw_new h code m timestamp (VObj args) in
  when (undefinedOrNull (prop args "AppId")) (fail 1%Z (msg +:+ "AppId"));;
  when (undefinedOrNull (prop args "AppVersion")) (fail 1%Z (msg +:+ "AppVersion"));;
  when (undefinedOrNull (prop args "Region")) (fail 1%Z (msg +:+ "Region"));;
  when (undefinedOrNull (prop args "UserId")) (fail 1%Z (msg +:+ "UserId")).

Definition ownKeys {A} (o : gmap string A) : list string :=
  forIn order (map_to_list o).*1.

(** The body of the loop of line 345. [data] maps a game to the object made
    for it. [listToLoad] maps a user to an array of those same objects:
    line 355 pushes [data[gameKey]] itself, so the array is kept as the keys
    under which [data] holds its elements. As in [get], what [Object.prototype]
    would add to the two objects is not modelled. *)
Definition listGame (gameList : gmap string val) (gameKey : string)
    (s : gmap string val * gmap string (list string))
    : M (gmap string val * gmap string (list string)) :=
  let '(data, listToLoad) := s in
  Creation ← liftE (get js (prop gameList gameKey) "Creation");
  UserId ← liftE (get js Creation "UserId");
  if strict_eq js UserId (currentPlayerId h) then
    State ← liftE (get js (prop gameList gameKey) "State");
    CustomProperties ← liftE (get js State "CustomProperties");
    mret (<[gameKey := VObj {[ "ActorNr" := VNum 1;
                               "Properties" := CustomProperties ]}]> data,
          listToLoad)
  else
    ActorNr ← liftE (get js (prop gameList gameKey) "ActorNr");
    let data := <[gameKey := VObj {[ "ActorNr" := ActorNr ]}]> data in
    let user := to_string js UserId in
    let listToLoad :=
      if bool_decide (is_Some (listToLoad !! user)) then listToLoad
      else <[user := []]> listToLoad in
    mret (data, <[user := default [] (listToLoad !! user) ++ [gameKey]]> listToLoad).

(** The body of the loop of line 363. The right-hand side of the assignment
    is evaluated before the property is set, as V8 does. *)
Definition loadProperties (gameList : gmap string val) (gameKey : string)
    (data : gmap string val) : M (gmap string val) :=
  State ← liftE (get js (prop gameList gameKey) "State");
  CustomProperties ← liftE (get js State "CustomProperties");
  game ← liftE (set js (prop data gameKey) "Properties" CustomProperties);
  mret (<[gameKey := game]> data).

(** The body of the loop of line 360. The elements of [listToLoad[userKey]]
    are passed as [Keys], objects though they are; [getSharedGroupData]
    hands them to the server as the strings they convert to. *)
Definition loadList (listToLoad : gmap string (list string)) (userKey : string)
    (data : gmap string val) : M (gmap string val) :=
  gameList ← getSharedGroupData js (VStr (getGamesListId js (VStr userKey)))
               (Some (prop data <$> default [] (listToLoad !! userKey)));
  forEach (loadProperties gameList) (ownKeys gameList) data.

(** The [catch (e)] block of line 372. *)
Definition replyCaught (e : thrown) : M val :=
  match e with
  | Photon p => mret (reply (PhotonException.ResultCode p) (PhotonException.Message p))
  | Thrown v =>
      name ← liftE (get js v "name");
      message ← liftE (get js v "message");
      mret (reply (-1) (to_string js name ++ ": " ++ to_string js message))
  end.

(** Line 334, which is also [handlers.GetGameList], line 611. *)
Definition GetGameList (args : gmap string val) : M val :=
  try_catch
    (checkWebRpcArgs args None;;
     gameList ← getSharedGroupData js (VStr (getGamesListId js (currentPlayerId h))) None;
     s ← forEach (listGame gameList) (ownKeys gameList) (∅, ∅);
     let '(data, listToLoad) := s in
     data ← forEach (loadList listToLoad) (ownKeys listToLoad) data;
     mret (listing data))
    replyCaught.

(** [handlers.InitGameList], line 615. *)
Definition InitGameList : M val :=
  let sharedGroupId := getGamesListId js (currentPlayerId h) in
  msg ← try_catch
           (createSharedGroup js (VStr sharedGroupId);; mret "game list created")
           (λ e,
              Error ← liftE (get js (caught e) "Error");
              if undefinedOrNull Error then mret "game list error" else
              error ← liftE (get js Error "error");
              if strict_eq js error (VStr "InvalidSharedGroupId")
              then mret "game list already exists."
              else mret "game list error");
  mret (reply 0 msg).

End GameList.

(** *** Player moves *)

(** [Date.parse], where [None] is [NaN], and [Date.prototype.toUTCString],
    on times in milliseconds. *)
Record Dates := {
  Date_parse : string → option Z;
  Date_toUTCString : Z → string
}.

(** The internal data and the statistics the server keeps for each player:
    the [Value] of every key, and the [Value] of every statistic. *)
Record Players := {
  internalData : gmap string (gmap string val);
  statistics : gmap string (gmap string Z)
}.

Definition internalDataOf (p : Players) (id : string) : gmap string val :=
  default ∅ (internalData p !! id).

Definition statisticsOf (p : Players) (id : string) : gmap string Z :=
  default ∅ (statistics p !! id).

(** The [Data] of the result, for the requested keys. *)
Definition server_GetUserInternalData (id : string) (keys : list string) (p : Players)
    : gmap string val :=
  filter (λ kv, kv.1 ∈ keys) (internalDataOf p id).

(** As for a shared group, a string replaces the value of its key and an
    [undefined] leaves it alone. *)
Definition server_UpdateUserInternalData (id : string) (data : gmap string val)
    (p : Players) : Players :=
  {| internalData := <[id := merge updateKey data (internalDataOf p id)]> (internalData p);
     statistics := statistics p |}.

(** The [Statistics] of the result, one element for each statistic. *)
Definition server_GetPlayerStatistics (id : string) (p : Players) : list (string * Z) :=
  map_to_list (statisticsOf p id).

(** Statistics aggregate by their last value, the default. *)
Definition server_UpdatePlayerStatistics (id : string) (updates : list (string * Z))
    (p : Players) : Players :=
  {| internalData := internalData p;
     statistics :=
       <[id := foldl (λ m u, <[u.1 := u.2]> m) (statisticsOf p id) updates]>
         (statistics p) |}.

Section Moves.
Context (js : Engine) (dates : Dates) (h : Host).

(** Line 780. *)
Definition playerMoveCooldownInSeconds : Z := 15.

(** Line 778; [Date_now] is [Date.now()]. The time since the last move is
    compared in milliseconds: [(now - lastMoveTime) / 1000 < 15] exactly when
    [now - lastMoveTime < 15 * 1000], and never when [lastMoveTime] is
    [NaN]. *)
Definition processPlayerMove (Date_now : Z) (playerMove : val) (p : Players)
    : bool * Players :=
  let now := Date_now in
  let PlayFabId := to_string js (currentPlayerId h) in
  let playerData := server_GetUserInternalData PlayFabId ["last_move_timestamp"] p in
  let tooEarly :=
    match playerData !! "last_move_timestamp" with
    | Some Value =>
        match Date_parse dates (to_string js Value) with
        | Some lastMoveTime =>
            (now - lastMoveTime <? playerMoveCooldownInSeconds * 1000)%Z
        | None => false
        end
    | None => false
    end in
  if tooEarly then (false, p) else
  let playerStats := server_GetPlayerStatistics PlayFabId p in
  let movesMade :=
    foldl (λ movesMade stat, if String.eqb stat.1 "" then stat.2 else movesMade)
      0%Z playerStats in
  let movesMade := (movesMade + 1)%Z in
  let p := server_UpdatePlayerStatistics PlayFabId [("movesMade", movesMade)] p in
  let p :=
    server_UpdateUserInternalData PlayFabId
      {[ "last_move_timestamp" := VStr (Date_toUTCString dates now);
         "last_move" := match playerMove with
                        | VUndef => VUndef
                        | _ => JSON_stringify playerMove
                        end ]} p in
  (true, p).

(** [handlers.updatePlayerMove], line 760: the [validMove] of its result. *)
Definition updatePlayerMove (Date_now : Z) (args : val) (p : Players) : bool * Players :=
  processPlayerMove Date_now args p.

(** [handlers.RoomEventRaised], line 597. Nothing catches what reading
    [eventData.eventType] throws. *)
Definition RoomEventRaised (Date_now : Z) (args : gmap string val) (p : Players)
    : (thrown + unit) * Players :=
  let eventData := prop args "Data" in
  match get js eventData "eventType" with
  | inl e => (inl e, p)
  | inr eventType =>
      if strict_eq js eventType (VStr "playerMove")
      then (inr (), (processPlayerMove Date_now eventData p).2)
      else (inr (), p)
  end.

End Moves.

(** ** Vocabulary of the properties *)

Section Vocabulary.
Context (js : Engine).

(** The shared group holding the record of the room an event is about, and
    the shared group holding the caller's list of games. *)
Definition roomOf (args : gmap string val) : string :=
  to_string js (prop args "GameId").

Definition indexOf (h : Host) : string :=
  getGamesListId js (currentPlayerId h).

(** The property name under which the roster keeps the event's actor. *)
Definition slotOf (args : gmap string val) : string :=
  to_string js (prop args "ActorNr").

(** A field of a stored record, decoded the way [getSharedGroupData] does. *)
Definition stored (g : gmap string val) (k : string) : option val :=
  g !! k ≫= JSON_parse js.








(** What validation does to the world, whatever the event: it writes to the
    audit trail only, throws nothing but a [PhotonException] with code 1, 2
    or 3, and changes nothing when it passes. *)
Definition validation (w : World) (r : (thrown + unit) * World) : Prop :=
  groups r.2 = groups w ∧
  match r.1 with
  | inr _ => r.2 = w
  | inl (Photon e) => PhotonException.ResultCode e ∈ [1; 2; 3]%Z
  | inl (Thrown _) => False
  end.

(** [Q] holds whenever validation passes. *)
Definition passing (Q : Prop) (r : (thrown + unit) * World) : Prop :=
  r.1 = inr () → Q.

(** The first five checks of [checkWebhookArgs] pass. *)
Definition envelope (args : gmap string val) : Prop :=
  undefinedOrNull (prop args "AppId") = false ∧
  undefinedOrNull (prop args "AppVersion") = false ∧
  undefinedOrNull (prop args "Region") = false ∧
  undefinedOrNull (prop args "GameId") = false ∧
  undefinedOrNull (prop args "Type") = false.

(** The checks on the acting player, made for every type but Close and
    Save, pass. *)
Definition actor (h : Host) (args : gmap string val) : Prop :=
  undefinedOrNull (prop args "ActorNr") = false ∧
  undefinedOrNull (prop args "UserId") = false ∧
  strict_eq js (prop args "UserId") (currentPlayerId h) = true ∧
  (undefinedOrNull (prop args "Username")
   && undefinedOrNull (prop args "Nickname"))%bool = false.

(** The error of line 562. *)
Definition countMismatch : Response :=
  {| ResultCode := 6; Message := "Actors count does not match"; State := None |}.

(** The error of line 278. *)
Definition closeWithActors : Response :=
  {| ResultCode := 2; Message := "ActorCount != 0 and Type == Close"; State := None |}.

(** What validation does to a Close event. *)
Definition closeValidation (args : gmap string val) (w : World)
    (r : (thrown + unit) * World) : Prop :=
  match r.1 with
  | inr _ => r.2 = w ∧ prop args "ActorCount" = VNum 0
  | inl (Photon e) =>
      groups r.2 = groups w ∧
      (PhotonException.ResultCode e = 1 ∨ PhotonException.ResultCode e = 2)%Z ∧
      (envelope args →
       undefinedOrNull (prop args "ActorCount") = false →
       undefinedOrNull (prop args "State2") = true →
       PhotonException.ResultCode e = 2%Z ∧
       PhotonException.Message e = "ActorCount != 0 and Type == Close")
  | inl (Thrown _) => False
  end.



End Vocabulary.

(** ** Scenarios *)

(** A field of the record stored for a room, and the size of its roster. *)
Definition record (js : Engine) (w : World) (room k : string) : option val :=
  groups w !! room ≫= λ g, stored js g k.

Definition rosterSize (js : Engine) (w : World) (room : string) : option val :=
  match record js w room "Actors" with
  | Some actors =>
      match keys_length js actors with
      | inr n => Some n
      | inl _ => None
      end
  | None => None
  end.

(** An engine for the closed examples. None of them hands a JSON text to a
    string operation, or a string that is not a JSON text to [JSON.parse],
    so neither field is consulted. *)
Definition engine0 : Engine :=
  {| JSON_text := λ _, ""; JSON_parse_raw := λ _, None |}.

(** The host during a call made for [player] at time [t]. *)
Definition host (player : val) (t : string) : Host :=
  {| currentPlayerId := player; now := t; random := "0.5";
     script_titleId := VStr "TITLE"; script_version := VNum 1;
     script_revision := VNum 1; server_version := VStr "1.0" |}.

(** A store in which three players have initialised their list of games. *)
Definition store0 : World :=
  {| groups := {[ "U1_GamesList" := ∅; "U2_GamesList" := ∅; "U3_GamesList" := ∅ ]};
     titleData := ∅ |}.

(** Events for room G1. *)
Definition envelopeOf (type : string) : gmap string val :=
  {[ "AppId" := VStr "app"; "AppVersion" := VStr "1.0"; "Region" := VStr "eu";
     "GameId" := VStr "G1"; "Type" := VStr type ]}.

Definition playerEvent (type user : string) (actorNr : Z) : gmap string val :=
  <["ActorNr" := VNum actorNr]>
    (<["UserId" := VStr user]> (<["Nickname" := VStr user]> (envelopeOf type))).

Definition createOptions (maxPlayers playerTTL : Z) : val :=
  VObj {[ "MaxPlayers" := VNum maxPlayers; "PlayerTTL" := VNum playerTTL;
          "CheckUserOnJoin" := VBool false ]}.

Definition createEvent (maxPlayers playerTTL : Z) : gmap string val :=
  <["CreateOptions" := createOptions maxPlayers playerTTL]> (playerEvent "Create" "U1" 1).

(** A Join as the relay sends it, and one that carries room options of its
    own, which is what line 485 reads. *)
Definition joinEvent (user : string) (actorNr : Z) : gmap string val :=
  playerEvent "Join" user actorNr.

Definition joinEventWith (maxPlayers : Z) (user : string) (actorNr : Z)
    : gmap string val :=
  <["RoomOptions" := VObj {[ "MaxPlayers" := VNum maxPlayers ]}]>
    (joinEvent user actorNr).

(** A leave of the given type and reason code; [inactive] is sent under
    both names, the one validation checks and the one the handler reads. *)
Definition leaveEvent (type reason user : string) (actorNr : Z) (inactive : bool)
    : gmap string val :=
  <["IsInactive" := VBool inactive]>
    (<["Inactive" := VBool inactive]>
       (<["Reason" := VStr reason]> (playerEvent type user actorNr))).

Definition closeEvent (actorCount : Z) : gmap string val :=
  <["ActorCount" := VNum actorCount]> (envelopeOf "Close").

Definition saveEvent (actorCount : Z) (state : val) : gmap string val :=
  <["State" := state]> (<["ActorCount" := VNum actorCount]> (envelopeOf "Save")).

Definition loadEvent (createIfNotExists : bool) : gmap string val :=
  <["CreateIfNotExists" := VBool createIfNotExists]>
    (<["CreateOptions" := createOptions 2 0]> (playerEvent "Load" "U1" 1)).

(** The store after U1 has created G1. *)
Definition created (js : Engine) (maxPlayers playerTTL : Z) : World :=
  (RoomCreated js (host (VStr "U1") "t1") (createEvent maxPlayers playerTTL) store0).2.

(** G1 with room for two, after U2 has joined as actor 2. *)
Definition full (js : Engine) : World :=
  (RoomJoined js (host (VStr "U2") "t2") (joinEventWith 4 "U2" 2) (created js 2 0)).2.

(** G1 with a player TTL, after U1 has left it and may come back. *)
Definition away (js : Engine) : World :=
  (RoomLeft js (host (VStr "U1") "t2")
     (leaveEvent "ClientDisconnect" "0" "U1" 1 true) (created js 2 60000)).2.

(** G1 after U1 has left it for good. *)
Definition emptied (js : Engine) : World :=
  (RoomLeft js (host (VStr "U1") "t2")
     (leaveEvent "LeaveRequest" "101" "U1" 1 false) (created js 2 0)).2.

(** G1 after its state has been saved. *)
Definition gameState : val := VObj {[ "turn" := VNum 3 ]}.

Definition saved (js : Engine) : World :=
  (RoomClosed js (host VUndef "t2") (saveEvent 1 gameState) (created js 2 0)).2.

(** Validation rejects a leave of type [type] with reason [code], which is
    the code of the type, as an unexpected leave reason. *)
Definition unexpectedLeaveReason (js : Engine) (code : string) : Prop :=
  ∃ type,
    LeaveReason !! type = Some (VStr code) ∧
    (checkWebhookArgs js (host (VStr "U1") "t1")
       (leaveEvent type code "U1" 1 false) "t1" store0).1
    = inl (Photon {| PhotonException.ResultCode := 2;
                     PhotonException.Message := "Unexpected LeaveReason";
                     PhotonException.Timestamp := Some "t1";
                     PhotonException.Data := VObj (leaveEvent type code "U1" 1 false) |}).

(** The entry a list of games holds for a room, decoded. *)
Definition indexEntry (js : Engine) (w : World) (index room : string) : option val :=
  groups w !! index ≫= λ g, stored js g room.

(** A create event and a load event that carry no creation options. *)
Definition bareCreateEvent : gmap string val := playerEvent "Create" "U1" 1.

Definition bareLoadEvent : gmap string val :=
  <["CreateIfNotExists" := VBool true]> (playerEvent "Load" "U1" 1).

(** The leave the relay sends when the player TTL of an inactive actor has
    run out. *)
Definition ttlEvent : gmap string val :=
  leaveEvent "PlayerTtlTimedOut" "102" "U1" 1 false.

(** The roster of G1 while U1 is away. *)
Definition awayRoster : val :=
  VObj {[ "1" := VObj {[ "UserId" := VStr "U1"; "Inactive" := VBool true ]} ]}.

(** A returned failure for an exception that is not a [PhotonException]. *)
Definition unexpected (message : string) : Response :=
  {| ResultCode := -1; Message := message; State := None |}.

(** *** Vocabulary for the handlers as a family *)

(** The title-data key and value that [logException] writes for an
    exception. *)
Definition logKey (h : Host) (p : PhotonException.t) : string :=
  match PhotonException.Timestamp p with
  | Some t => t ++ random h
  | None => "NaN"
  end.

Definition logEntry (message : string) (data : val) : val :=
  JSON_stringify (VObj {[ "Message" := VStr message; "Data" := data ]}).

(** The world after the exception [p] has been logged. *)
Definition logs (h : Host) (p : PhotonException.t) (w : World) : World :=
  {| groups := groups w;
     titleData :=
       <[logKey h p := logEntry (PhotonException.Message p) (PhotonException.Data p)]>
         (titleData w) |}.

(** The types [checkWebhookArgs] has a case for, the deprecated Leave
    apart. *)
Definition eventTypes : list string :=
  ["Load"; "Create"; "Join"; "Player"; "Game"; "Event"; "Save"; "Close"].

(** The four room handlers. *)
Inductive webhook := Created | Joined | Left | Closed.

Definition handler (js : Engine) (h : Host) (k : webhook)
    : gmap string val → M Response :=
  match k with
  | Created => RoomCreated js h
  | Joined => RoomJoined js h
  | Left => RoomLeft js h
  | Closed => RoomClosed js h
  end.

(** The event types on which a handler does not throw its "Wrong Path"
    exception. *)
Definition accepts (js : Engine) (k : webhook) (type : val) : Prop :=
  match k with
  | Created =>
      strict_eq js type (VStr "Create") = true ∨ strict_eq js type (VStr "Load") = true
  | Joined => strict_eq js type (VStr "Join") = true
  | Left => is_Some (LeaveReason !! to_string js type)
  | Closed =>
      strict_eq js type (VStr "Close") = true ∨ strict_eq js type (VStr "Save") = true
  end.

(** Between [w] and [w'] one entry was written to the title data: the
    message of the response [r], with some data. *)
Definition logged (w w' : World) (r : Response) : Prop :=
  ∃ key data,
    titleData w' = <[key := logEntry (Message r) data]> (titleData w).

(** What validation does, by outcome: passing changes nothing and needs a
    known type; failing logs the exception it throws, whose code is 1, 2
    or 3. *)
Definition validationOutcome (js : Engine) (h : Host) (args : gmap string val)
    (ts : string) (w : World) (r : (thrown + unit) * World) : Prop :=
  match r.1 with
  | inr _ =>
      r.2 = w ∧
      (to_string js (prop args "Type") ∈ eventTypes
       ∨ is_Some (LeaveReason !! to_string js (prop args "Type")))
  | inl (Photon p) =>
      r.2 = logs h p w ∧
      PhotonException.ResultCode p ∈ [1; 2; 3]%Z ∧
      (PhotonException.Timestamp p = Some ts ∨ PhotonException.Timestamp p = None)
  | inl (Thrown _) => False
  end.

(** What a handler does, by result code. *)
Definition outcome (js : Engine) (h : Host) (k : webhook) (args : gmap string val)
    (w : World) (r : Response) (w' : World) : Prop :=
  (ResultCode r = 0%Z ∧
   checkWebhookArgs js h args (getISOTimestamp h) w = (inr (), w) ∧
   accepts js k (prop args "Type") ∧
   titleData w' = titleData w)
  ∨ (ResultCode r = (-1)%Z ∧ titleData w' = titleData w ∧ State r = None)
  ∨ (ResultCode r ∈ [1; 2; 3; 5; 6]%Z ∧ logged w w' r ∧ State r = None).

(** The shared group holding the list of games of the player who created
    the room whose record is [g]. *)
Definition creatorList (js : Engine) (g : gmap string val) : option string :=
  match get js (default VUndef (stored js g "Creation")) "UserId" with
  | inr creator => Some (getGamesListId js creator)
  | inl _ => None
  end.


(** *** Vocabulary for the list of games *)

(** The arguments [checkWebRpcArgs] asks for, in the order of its checks. *)
Definition rpcArguments : list string := ["AppId"; "AppVersion"; "Region"; "UserId"].

(** The exception [checkWebRpcArgs] throws for a missing argument when it
    is called without a timestamp. *)
Definition missingArgument (args : gmap string val) (name : string) : PhotonException.t :=
  {| PhotonException.ResultCode := 1;
     PhotonException.Message := "Missing argument: " ++ name;
     PhotonException.Timestamp := None;
     PhotonException.Data := VObj args |}.

(** A computation that leaves the world as it is, and throws nothing but
    values that have a name and a message to read. *)
Definition reads {A} (c : M A) : Prop :=
  ∀ w, (c w).2 = w ∧
       match (c w).1 with
       | inl (Photon _) => False
       | inl (Thrown v) => undefinedOrNull v = false
       | inr _ => True
       end.

(** The object [GetGameList] makes for a stored entry of the caller's list
    that was created by the caller and has a state. *)
Definition ownSavedGame (js : Engine) (h : Host) (v : val) : option val :=
  match JSON_parse js v with
  | Some entry =>
      match get js entry "Creation" with
      | inr Creation =>
          match get js Creation "UserId", get js entry "State" with
          | inr UserId, inr State =>
              match get js State "CustomProperties" with
              | inr CustomProperties =>
                  if strict_eq js UserId (currentPlayerId h)
                  then Some (VObj {[ "ActorNr" := VNum 1;
                                     "Properties" := CustomProperties ]})
                  else None
              | inl _ => None
              end
          | _, _ => None
          end
      | inl _ => None
      end
  | None => None
  end.

(** The user id under which a stored entry of a list of games names the
    creator of its game. *)
Definition creatorOf (js : Engine) (v : val) : option val :=
  match JSON_parse js v with
  | Some entry =>
      match get js entry "Creation" with
      | inr Creation =>
          match get js Creation "UserId" with
          | inr UserId => Some UserId
          | inl _ => None
          end
      | inl _ => None
      end
  | None => None
  end.

(** [GetGameList] past the check of its arguments. *)
Definition listGames (js : Engine) (h : Host) (order : Enumeration) : M val :=
  gameList ← getSharedGroupData js (VStr (getGamesListId js (currentPlayerId h))) None;
  s ← forEach (listGame js h gameList) (ownKeys order gameList) (∅, ∅);
  let '(data, listToLoad) := s in
  data ← forEach (loadList js order listToLoad) (ownKeys order listToLoad) data;
  mret (listing data).

(** *** Vocabulary for the player moves *)

(** The move comes less than [playerMoveCooldownInSeconds] after the time
    the player's [last_move_timestamp] parses to. *)
Definition tooEarly (js : Engine) (dates : Dates) (h : Host) (now : Z) (p : Players)
    : Prop :=
  ∃ Value lastMoveTime,
    internalDataOf p (to_string js (currentPlayerId h)) !! "last_move_timestamp"
    = Some Value ∧
    Date_parse dates (to_string js Value) = Some lastMoveTime ∧
    (now - lastMoveTime < 15000)%Z.

(** *** More scenarios *)

(** A store with one shared group, which holds one entry. *)
Definition shelf : World :=
  {| groups := {[ "G" := {[ "k" := VJson (VNum 1) ]} ]}; titleData := ∅ |}.

(** The shared group of a room or of a list of games, if there is one. *)
Definition group (w : World) (id : string) : gmap string val :=
  default ∅ (groups w !! id).

(** The roster of G1 right after its creation, and the actor U1 in it. *)
Definition firstActor : val :=
  VObj {[ "UserId" := VStr "U1"; "Inactive" := VBool false ]}.

Definition firstRoster : gmap string val := {[ "1" := firstActor ]}.

(** The [Creation] of the record of G1. *)
Definition firstCreation : gmap string val :=
  {[ "Timestamp" := VStr "t1"; "UserId" := VStr "U1"; "Type" := VStr "Create" ]}.

(** The exception validation throws for [closeEvent 1] at time t3. *)
Definition closeRejected : PhotonException.t :=
  {| PhotonException.ResultCode := 2;
     PhotonException.Message := "ActorCount != 0 and Type == Close";
     PhotonException.Timestamp := Some "t3";
     PhotonException.Data := VObj (closeEvent 1) |}.

(** A saved state with custom properties, and the Save of G1 with it. *)
Definition customState : gmap string val :=
  {[ "turn" := VNum 3; "CustomProperties" := VObj {[ "map" := VStr "isle" ]} ]}.

Definition kept (js : Engine) : World :=
  (RoomClosed js (host VUndef "t2") (saveEvent 1 (VObj customState)) (created js 2 0)).2.

(** An engine that visits the keys in the order of the map. *)
Definition inMapOrder : Enumeration :=
  {| forIn := λ l, l; forIn_keys := λ l, Permutation_refl l |}.

(** The arguments of a [GetGameList] call of U1. *)
Definition listEvent : gmap string val :=
  {[ "AppId" := VStr "app"; "AppVersion" := VStr "1.0"; "Region" := VStr "eu";
     "UserId" := VStr "U1" ]}.

(** A clock that prints a time as its whole seconds and reads a number of
    seconds back, for the examples. *)
Definition seconds : Dates :=
  {| Date_parse := λ s, (λ n, n * 1000)%Z <$> string_to_number s;
     Date_toUTCString := λ t, pretty (t / 1000)%Z |}.

(** A player base with no data yet. *)
Definition nobody : Players := {| internalData := ∅; statistics := ∅ |}.

(** ** Running the script symbolically *)

(** The scrutinee the evaluation of [t] is waiting for. *)
Ltac head_scrut t :=
  lazymatch t with
  | match ?x with _ => _ end => head_scrut x
  | ?f ?a =>
      lazymatch f with
      | match ?x with _ => _ end => head_scrut x
      | _ => t
      end
  | _ => t
  end.

Ltac is_redex t :=
  lazymatch t with
  | match _ with _ => _ end => idtac
  | ?f _ => lazymatch f with match _ with _ => _ end => idtac end
  end.

Ltac unfold_m :=
  cbv beta iota zeta delta
    [mbind M_bind mret M_ret throw liftE when try_catch throw_new new_PhotonException
     logException server_SetTitleData OK
     deleteSharedGroupEntry createSharedGroup deleteSharedGroup
     server_CreateSharedGroup server_DeleteSharedGroup].

Section Basics.
Context (js : Engine).

Lemma get_inl v k e : get js v k = inl e → undefinedOrNull v = true.
Proof. by destruct v. Qed.

Lemma get_throws v k e : get js v k = inl e → ∃ m, e = TypeError m.
Proof. destruct v; simpl; intros [= <-]; eauto. Qed.

Lemma set_throws v k x e : set js v k x = inl e → ∃ m, e = TypeError m.
Proof. destruct v; simpl; intros [= <-]; eauto. Qed.

Lemma set_in_throws v k f x e : set_in js v k f x = inl e → ∃ m, e = TypeError m.
Proof.
  unfold set_in. destruct (get js v k) eqn:Hg; [intros [= <-]; eauto using get_throws|].
  destruct (set js v0 f x) eqn:Hs; [intros [= <-]; eauto using set_throws|done].
Qed.

Lemma delete_prop_throws v k e : delete_prop js v k = inl e → ∃ m, e = TypeError m.
Proof. destruct v; simpl; repeat case_match; intros [= <-]; eauto. Qed.

Lemma hasOwnProperty_throws v k e : hasOwnProperty js v k = inl e → ∃ m, e = TypeError m.
Proof. destruct v; simpl; intros [= <-]; eauto. Qed.

Lemma keys_length_throws v e : keys_length js v = inl e → ∃ m, e = TypeError m.
Proof. destruct v; simpl; intros [= <-]; eauto. Qed.

Lemma keys_length_returns v x : keys_length js v = inr x → ∃ n, x = VNum n.
Proof. destruct v; simpl; intros [= <-]; eauto. Qed.

Lemma as_string_to_string v s : as_string js v = Some s → to_string js v = s.
Proof. destruct v; simpl; congruence. Qed.

Lemma strict_eq_VStr v s : strict_eq js v (VStr s) = true ↔ as_string js v = Some s.
Proof.
  destruct v; simpl; try (split; [discriminate | congruence]).
  - rewrite String.eqb_eq. split; congruence.
  - rewrite String.eqb_eq. split; congruence.
Qed.

Lemma strict_eq_VNum v n : strict_eq js v (VNum n) = true ↔ v = VNum n.
Proof.
  destruct v; simpl; try (split; [discriminate | congruence]).
  rewrite Z.eqb_eq. split; congruence.
Qed.


Lemma strict_eq_as_string v s t :
  as_string js v = Some s → strict_eq js v (VStr t) = String.eqb s t.
Proof. by destruct v; simpl; try discriminate; intros [= ->]. Qed.

(** *** The store adapter, run *)

Lemma getSharedGroupData_all id w :
  getSharedGroupData js id None w =
  match groups w !! to_string js id with
  | None => (inl (apiError "InvalidSharedGroupId"), w)
  | Some g =>
      if decide (map_Forall (λ _ v, is_Some (JSON_parse js v)) g)
      then (inr (omap (JSON_parse js) g), w)
      else (inl (SyntaxError "Unexpected token in JSON"), w)
  end.
Proof.
  unfold getSharedGroupData, server_GetSharedGroupData.
  cbv [mbind M_bind mret M_ret throw]. cbn [fmap option_fmap option_map].
  destruct (groups w !! to_string js id); [|done].
  by destruct (decide _).
Qed.

Lemma updateSharedGroupData_run id data w :
  updateSharedGroupData js id data w =
  match groups w !! to_string js id with
  | None => (inl (apiError "InvalidSharedGroupId"), w)
  | Some g =>
      (inr (encodeField <$> data),
       {| groups := <[to_string js id := merge updateKey (encodeField <$> data) g]> (groups w);
          titleData := titleData w |})
  end.
Proof.
  unfold updateSharedGroupData, server_UpdateSharedGroupData.
  cbv [mbind M_bind mret M_ret]. by destruct (groups w !! to_string js id).
Qed.

Lemma updateSharedGroupEntry_run id key v w :
  updateSharedGroupEntry js id key v w =
  match groups w !! to_string js id with
  | None => (inl (apiError "InvalidSharedGroupId"), w)
  | Some g =>
      (inr (),
       {| groups := <[to_string js id :=
                        merge updateKey {[ to_string js key := encodeField v ]} g]> (groups w);
          titleData := titleData w |})
  end.
Proof.
  unfold updateSharedGroupEntry. cbv [mbind M_bind mret M_ret].
  rewrite updateSharedGroupData_run, map_fmap_singleton.
  by destruct (groups w !! to_string js id).
Qed.

Lemma appendEvent_run data k ts entry w :
  appendEvent js data k ts entry w =
  match set js (prop (if undefinedOrNull (prop data k)
                      then <[k := VObj ∅]> data else data) k) ts entry with
  | inl e => (inl e, w)
  | inr events =>
      (inr (<[k := events]> (if undefinedOrNull (prop data k)
                             then <[k := VObj ∅]> data else data)), w)
  end.
Proof.
  unfold appendEvent. cbv [mbind M_bind mret M_ret liftE].
  by destruct (set js _ ts entry).
Qed.

(** *** The catch block, run *)

Lemma catcher_Photon e w :
  catcher js (Photon e) w
  = (inr {| ResultCode := PhotonException.ResultCode e;
            Message := PhotonException.Message e; State := None |}, w).
Proof. reflexivity. Qed.

Lemma catcher_error name m w :
  catcher js (Thrown (errorObject name m)) w
  = (inr {| ResultCode := -1; Message := name ++ ": " ++ m; State := None |}, w).
Proof. reflexivity. Qed.

Lemma catcher_apiError c w :
  catcher js (apiError c) w
  = (inr {| ResultCode := -1; Message := "undefined: undefined"; State := None |}, w).
Proof. reflexivity. Qed.

End Basics.

(** What a pure operation throws is a [TypeError]. *)
Ltac inv_throw E :=
  lazymatch type of E with
  | _ = inl _ =>
      let E' := fresh E in
      pose proof E as E';
      lazymatch type of E with
      | get _ _ _ = _ => apply get_throws in E
      | set _ _ _ _ = _ => apply set_throws in E
      | set_in _ _ _ _ _ = _ => apply set_in_throws in E
      | delete_prop _ _ _ = _ => apply delete_prop_throws in E
      | hasOwnProperty _ _ _ = _ => apply hasOwnProperty_throws in E
      | keys_length _ _ = _ => apply keys_length_throws in E
      end;
      destruct E as [? ->]
  | _ => idtac
  end.

(** One step: decide the scrutinee the evaluation is waiting for, from a
    hypothesis if there is one, by cases otherwise. *)
Ltac case_head t :=
  is_redex t;
  let s := head_scrut t in
  first
    [ match goal with H : s = _ |- _ => rewrite H end
    | lazymatch s with
      | getSharedGroupData _ _ None _ => rewrite getSharedGroupData_all
      | updateSharedGroupData _ _ _ _ => rewrite updateSharedGroupData_run
      | updateSharedGroupEntry _ _ _ _ _ => rewrite updateSharedGroupEntry_run
      | appendEvent _ _ _ _ _ _ => rewrite appendEvent_run
      end
    | is_var s; destruct s
    | let E := fresh "E" in destruct s eqn:E; inv_throw E ];
  cbv beta iota;
  cbn [groups titleData negb andb orb String.eqb Ascii.eqb Bool.eqb
       get set hasOwnProperty keys_length delete_prop].

Ltac step := match goal with |- _ ?t => case_head t end.

Ltac exec := repeat step.

Ltac caught :=
  unfold TypeError, SyntaxError;
  rewrite ?catcher_Photon, ?catcher_error, ?catcher_apiError.

Section Validation.
Context (js : Engine).

Lemma checkWebhookArgs_validation h args ts w :
  validation w (checkWebhookArgs js h args ts w).
Proof.
  unfold checkWebhookArgs. unfold_m.
  exec.
  all: try (split; [reflexivity | cbn; rewrite ?elem_of_cons; auto]).
  all: match goal with H : get _ _ _ = inl _ |- _ =>
         apply get_inl in H; congruence end.
Qed.

Lemma checkWebhookArgs_Close h args ts w :
  strict_eq js (prop args "Type") (VStr "Close") = true →
  closeValidation args w (checkWebhookArgs js h args ts w).
Proof.
  intros Hc. apply strict_eq_VStr in Hc.
  unfold checkWebhookArgs. unfold_m. unfold strict_ne.
  rewrite !(strict_eq_as_string _ _ _ _ Hc).
  cbn [negb andb orb String.eqb Ascii.eqb Bool.eqb].
  exec.
  all: unfold closeValidation, envelope; cbn.
  all: try match goal with H : get _ _ _ = inl _ |- _ =>
         apply get_inl in H; congruence end.
  all: try match goal with H : negb _ = false |- _ =>
         apply negb_false_iff, strict_eq_VNum in H end.
  all: try done.
  all: split; [done|split; [auto|]].
  all: try (intros (?&?&?&?&?) ? ?; congruence).
  all: done.
Qed.

End Validation.

Section Close.
Context (js : Engine).

(** C10. A Close event that returns success found an empty roster: its
    actor count is 0, and the stored roster has no keys. *)
Theorem close_success_empty_roster h args w r w' :
  strict_eq js (prop args "Type") (VStr "Close") = true →
  RoomClosed js h args w = (inr r, w') →
  ResultCode r = 0%Z →
  prop args "ActorCount" = VNum 0 ∧
  ∃ data, getSharedGroupData js (prop args "GameId") None w = (inr data, w) ∧
          keys_length js (prop data "Actors") = inr (VNum 0).
Proof.
  intros Hc. revert r w'.
  pose proof (checkWebhookArgs_Close js h args (getISOTimestamp h) w Hc) as Hv.
  pose (P := λ res : (thrown + Response) * World,
       ∀ r w', res = (inr r, w') → ResultCode r = 0%Z →
         prop args "ActorCount" = VNum 0 ∧
         ∃ data, getSharedGroupData js (prop args "GameId") None w = (inr data, w) ∧
                 keys_length js (prop data "Actors") = inr (VNum 0)).
  change (P (RoomClosed js h args w)).
  unfold RoomClosed. unfold_m.
  destruct (checkWebhookArgs js h args (getISOTimestamp h) w) as [[[e|v]|[]] w1];
    unfold closeValidation in Hv; cbn in Hv.
  - caught. intros r w' [= <- <-] Hr. cbn in Hr. lia.
  - done.
  - destruct Hv as [-> Hac]. rewrite Hac. exec.
    all: caught.
    all: intros r w' [= <- <-] Hr; try discriminate Hr.
    split; [done|]. rewrite getSharedGroupData_all, E, E0.
    eexists; split; [done|].
    apply negb_false_iff, strict_eq_VNum in E2. by subst.
Qed.

(** C7, amended. A Close event whose actor count differs from the size of
    the stored roster returns a failure and changes no shared group. The
    failure is the count mismatch of the handler when the event passes
    validation; an event with a count other than 0 does not pass: it is
    rejected with code 1 or 2, and with "ActorCount != 0 and Type == Close"
    when nothing else is wrong with it. *)
Theorem close_count_differs h args w data n :
  strict_eq js (prop args "Type") (VStr "Close") = true →
  getSharedGroupData js (prop args "GameId") None w = (inr data, w) →
  keys_length js (prop data "Actors") = inr (VNum n) →
  prop args "ActorCount" ≠ VNum n →
  ∃ r w',
    RoomClosed js h args w = (inr r, w') ∧
    ResultCode r ≠ 0%Z ∧
    groups w' = groups w ∧
    (checkWebhookArgs js h args (now h) w = (inr (), w) → r = countMismatch) ∧
    (prop args "ActorCount" ≠ VNum 0 →
     (ResultCode r = 1 ∨ ResultCode r = 2)%Z ∧
     (envelope args →
      undefinedOrNull (prop args "ActorCount") = false →
      undefinedOrNull (prop args "State2") = true →
      r = closeWithActors)).
Proof.
  intros Hc Hdata Hn Hne.
  pose proof (checkWebhookArgs_Close js h args (getISOTimestamp h) w Hc) as Hv.
  pose (P := λ res : (thrown + Response) * World,
       ∃ r w',
         res = (inr r, w') ∧
         ResultCode r ≠ 0%Z ∧
         groups w' = groups w ∧
         (checkWebhookArgs js h args (now h) w = (inr (), w) → r = countMismatch) ∧
         (prop args "ActorCount" ≠ VNum 0 →
          (ResultCode r = 1 ∨ ResultCode r = 2)%Z ∧
          (envelope args →
           undefinedOrNull (prop args "ActorCount") = false →
           undefinedOrNull (prop args "State2") = true →
           r = closeWithActors))).
  change (P (RoomClosed js h args w)).
  unfold RoomClosed. unfold_m. change (getISOTimestamp h) with (now h) in *.
  destruct (checkWebhookArgs js h args (now h) w) as [[[e|v]|[]] w1];
    unfold closeValidation in Hv; cbn in Hv.
  - caught. destruct Hv as (Hg & Hcode & Hmsg).
    eexists _, _. split; [done|]. cbn. split; [lia|]. split; [done|].
    split; [done|]. intros _. split; [done|].
    intros He Hac Hs. destruct (Hmsg He Hac Hs) as [Hc2 Hm2].
    destruct e; cbn in *. by subst.
  - done.
  - destruct Hv as [-> Hac]. rewrite Hac in Hne |- *.
    assert (strict_ne js (VNum n) (VNum 0) = true) as Hs.
    { unfold strict_ne. simpl. apply negb_true_iff, Z.eqb_neq. congruence. }
    rewrite Hdata. cbv beta iota. rewrite Hn. cbv beta iota. rewrite Hs.
    cbv beta iota. caught.
    eexists _, _. split; [done|]. cbn. split; [done|]. split; [done|].
    split; [done|]. done.
Qed.

End Close.

Section LeaveFamily.
Context (js : Engine).

Lemma strict_eq_VStr_l v s : strict_eq js (VStr s) v = true ↔ as_string js v = Some s.
Proof.
  destruct v; simpl; try (split; [discriminate | congruence]).
  - rewrite String.eqb_eq. split; congruence.
  - rewrite String.eqb_eq. split; congruence.
Qed.

(** A type of the leave family is none of the strings that are not keys of
    [LeaveReason]. *)
Lemma leave_type_not v s :
  is_Some (LeaveReason !! to_string js v) →
  LeaveReason !! s = None →
  strict_eq js v (VStr s) = false.
Proof.
  intros Hin Hs. destruct (strict_eq js v (VStr s)) eqn:E; [|done].
  apply strict_eq_VStr, as_string_to_string in E. rewrite E, Hs in Hin.
  by destruct Hin.
Qed.

Lemma unexpected_reason v code :
  as_string js v = Some code →
  existsb (strict_eq js v) [VStr "1"; VStr "100"; VStr "103"; VStr "105"] = true
  ↔ code ∈ ["1"; "100"; "103"; "105"].
Proof.
  intros Hv. cbn [existsb]. rewrite !(strict_eq_as_string _ _ _ _ Hv).
  rewrite !orb_true_iff, !String.eqb_eq, !elem_of_cons, elem_of_nil.
  intuition congruence.
Qed.

(** C9, amended. For an event whose type is a key of [LeaveReason], and on
    which the checks common to all types pass, validation passes exactly
    when the event has an inactive flag and its reason is the code the
    enumeration gives for the type, unless that code is one of the four
    codes 1, 100, 103 and 105, which are rejected as "Unexpected
    LeaveReason". *)
Theorem leave_validation h args ts w code :
  LeaveReason !! to_string js (prop args "Type") = Some (VStr code) →
  envelope args →
  actor js h args →
  (checkWebhookArgs js h args ts w = (inr (), w) ↔
     undefinedOrNull (prop args "IsInactive") = false ∧
     as_string js (prop args "Reason") = Some code ∧
     code ∉ ["1"; "100"; "103"; "105"]) ∧
  (undefinedOrNull (prop args "IsInactive") = false →
   as_string js (prop args "Reason") = Some code →
   code ∈ ["1"; "100"; "103"; "105"] →
   (checkWebhookArgs js h args ts w).1
   = inl (Photon {| PhotonException.ResultCode := 2;
                    PhotonException.Message := "Unexpected LeaveReason";
                    PhotonException.Timestamp := Some ts;
                    PhotonException.Data := VObj args |})).
Proof.
  intros Hty (HAppId & HAppVersion & HRegion & HGameId & HType)
    (HActorNr & HUserId & Hcaller & Hname).
  assert (is_Some (LeaveReason !! to_string js (prop args "Type"))) as Hin by eauto.
  assert (prop LeaveReason (to_string js (prop args "Type")) = VStr code) as Hcode
    by (unfold prop at 1; by rewrite Hty).
  pose (P := λ res : (thrown + ()) * World,
    (res = (inr (), w) ↔
       undefinedOrNull (prop args "IsInactive") = false ∧
       as_string js (prop args "Reason") = Some code ∧
       code ∉ ["1"; "100"; "103"; "105"]) ∧
    (undefinedOrNull (prop args "IsInactive") = false →
     as_string js (prop args "Reason") = Some code →
     code ∈ ["1"; "100"; "103"; "105"] →
     res.1 = inl (Photon {| PhotonException.ResultCode := 2;
                            PhotonException.Message := "Unexpected LeaveReason";
                            PhotonException.Timestamp := Some ts;
                            PhotonException.Data := VObj args |}))).
  change (P (checkWebhookArgs js h args ts w)).
  unfold checkWebhookArgs. unfold_m. unfold strict_ne.
  rewrite Hcode, Hcaller, bool_decide_true by done.
  rewrite !(leave_type_not _ _ Hin) by done.
  cbn [negb andb orb].
  exec.
  all: subst P; cbv beta.
  all: try rewrite negb_true_iff in E1.
  all: try rewrite negb_false_iff in E1.
  all: try rewrite strict_eq_VStr_l in E1.
  - split; [|intros; congruence].
    split; [done|]. intros (? & ? & ?). congruence.
  - split; [|intros ? Hr; destruct (prop args "Reason"); done].
    split; [done|]. intros (? & Hr & ?). destruct (prop args "Reason"); done.
  - split; [|intros ? Hr; apply strict_eq_VStr_l in Hr; congruence].
    split; [done|]. intros (? & Hr & ?). apply strict_eq_VStr_l in Hr. congruence.
  - apply (unexpected_reason _ _ E1) in E2. split; [|done].
    split; [done|]. intros (? & ? & ?). done.
  - split.
    + split; [|done]. intros _. split_and!; [done..|].
      intros Hc. apply (unexpected_reason _ _ E1) in Hc. congruence.
    + intros _ _ Hc. apply (unexpected_reason _ _ E1) in Hc. congruence.
Qed.

End LeaveFamily.

Section Leave.
Context (js : Engine).

Lemma checkWebhookArgs_actor h args ts w :
  (strict_ne js (prop args "Type") (VStr "Close")
   && strict_ne js (prop args "Type") (VStr "Save"))%bool = true →
  passing (actor js h args) (checkWebhookArgs js h args ts w).
Proof.
  intros Hty. unfold checkWebhookArgs. unfold_m. rewrite Hty.
  exec.
  all: intros Hr; try discriminate Hr.
  all: unfold actor; apply negb_false_iff in E6; done.
Qed.

Lemma prop_stored g k v :
  stored js g k = Some v → prop (omap (JSON_parse js) g) k = v.
Proof. unfold stored, prop. rewrite lookup_omap. by intros ->. Qed.

(** What an update leaves in the store for a field of the record. *)
Lemma stored_updated g data k v :
  data !! k = Some v →
  undefinedOrNull v = false →
  isString v = false →
  stored js (merge updateKey (encodeField <$> data) g) k = Some (json_norm v).
Proof.
  intros Hk Hn Hs. unfold stored. rewrite lookup_merge, lookup_fmap, Hk.
  cbn. unfold encodeField. rewrite Hn, Hs. cbn. by destruct (g !! k).
Qed.

Lemma stored_kept (g data : gmap string val) k :
  data !! k = None →
  stored js (merge updateKey data g) k = stored js g k.
Proof.
  intros Hk. unfold stored. rewrite lookup_merge, Hk. by destruct (g !! k).
Qed.

Lemma merge_updateKey_null (k : string) (g : gmap string val) :
  merge updateKey {[ k := encodeField VNull ]} g = delete k g.
Proof.
  apply map_eq. intros i. rewrite lookup_merge.
  destruct (decide (i = k)) as [->|Hne].
  - rewrite lookup_singleton_eq, lookup_delete_eq. by destruct (g !! k).
  - rewrite lookup_singleton_ne, lookup_delete_ne by done. by destruct (g !! i).
Qed.


Lemma prop_lookup (o : gmap string val) k v : o !! k = Some v → prop o k = v.
Proof. unfold prop. by intros ->. Qed.




End Leave.

Section Roster.
Context (js : Engine).

Lemma string_length_app (s t : string) :
  String.length (s ++ t) = (String.length s + String.length t)%nat.
Proof. induction s as [|c s IH]; simpl; [done|]. by rewrite IH. Qed.

(** No list of games is called like a field of a room record. *)
Lemma getGamesListId_not_field p :
  getGamesListId js p ≠ "Actors" ∧ getGamesListId js p ≠ "NextActorNr".
Proof.
  unfold getGamesListId, GAMES_LIST_SUFFIX. split; intros H.
  - apply (f_equal String.length) in H. rewrite string_length_app in H.
    simpl in H. lia.
  - destruct (to_string js p) as [|c [|c' s]]; [done| by injection H |].
    apply (f_equal String.length) in H. simpl in H.
    rewrite string_length_app in H. simpl in H. lia.
Qed.





(** A write of one entry of a list of games does not touch the two
    fields, even when it lands in the group of the room. *)
Lemma stored_entry (G : gmap string (gmap string val)) room index key cell g1 gl :
  G !! room = Some g1 →
  G !! index = Some gl →
  (index = room → key ≠ "Actors" ∧ key ≠ "NextActorNr") →
  ∃ g', <[index := merge updateKey {[ key := cell ]} gl]> G !! room = Some g' ∧
        stored js g' "Actors" = stored js g1 "Actors" ∧
        stored js g' "NextActorNr" = stored js g1 "NextActorNr".
Proof.
  intros Hroom Hindex Hkey. destruct (decide (index = room)) as [->|Hne].
  - rewrite lookup_insert_eq. eexists; split; [done|].
    destruct (Hkey eq_refl) as [HkA HkN]. simplify_eq.
    split; (rewrite stored_kept; [done|]; by rewrite lookup_singleton_ne).
  - rewrite lookup_insert_ne by done. eauto.
Qed.




Lemma prop_insert_ne (d : gmap string val) k k' v :
  k ≠ k' → prop (<[k := v]> d) k' = prop d k'.
Proof. unfold prop. intros. by rewrite lookup_insert_ne. Qed.




End Roster.

Section Invariant.
Context (js : Engine).





End Invariant.

Section Failures.
Context (js : Engine).

Lemma prop_absent g k :
  stored js g k = None → prop (omap (JSON_parse js) g) k = VUndef.
Proof. unfold stored, prop. rewrite lookup_omap. by intros ->. Qed.

(** X16. A join into a slot handed out before, on a room with a player TTL
    whose record has no [ActiveActors], never succeeds and changes no shared
    group. *)
Lemma rejoin_never_succeeds h args w g options ttl next r w' :
  groups w !! roomOf js args = Some g →
  stored js g "ActiveActors" = None →
  stored js g "RoomOptions" = Some options →
  get js options "PlayerTTL" = inr ttl →
  strict_ne js ttl (VNum 0) = true →
  stored js g "NextActorNr" = Some next →
  js_gt js next (prop args "ActorNr") = true →
  RoomJoined js h args w = (inr r, w') →
  ResultCode r ≠ 0%Z ∧ groups w' = groups w.
Proof.
  intros Hg Hactive Hoptions Httl Hnz Hnext Hgt. revert r w'.
  pose proof (checkWebhookArgs_validation js h args (getISOTimestamp h) w) as Hv.
  pose (P := λ res : (thrown + Response) * World,
    ∀ r w', res = (inr r, w') → ResultCode r ≠ 0%Z ∧ groups w' = groups w).
  change (P (RoomJoined js h args w)).
  unfold roomOf in *.
  apply prop_absent in Hactive. apply prop_stored in Hoptions, Hnext.
  unfold RoomJoined. unfold_m.
  destruct (checkWebhookArgs js h args (getISOTimestamp h) w) as [[[e|v]|[]] w1] eqn:Hcheck;
    destruct Hv as [Hgr Hv]; cbn in Hgr, Hv.
  - caught. intros r w' [= <- <-]. cbn. split; [|done].
    rewrite !elem_of_cons, elem_of_nil in Hv. lia.
  - done.
  - subst w1. do 3 step.
    2: { caught. by intros r w' [= <- <-]. }
    rewrite Hactive, Hoptions, Hnext, Httl. cbv beta iota. rewrite Hnz, Hgt.
    cbn [andb]. cbv beta iota.
    exec.
    all: caught.
    all: by intros r w' [= <- <-].
Qed.

(** A leave for a slot that is inactive never succeeds, whatever its type
    and reason. *)
Lemma leave_inactive_never_succeeds h args w g actors a inactive r w' :
  groups w !! roomOf js args = Some g →
  stored js g "Actors" = Some (VObj actors) →
  actors !! slotOf js args = Some a →
  get js a "Inactive" = inr inactive →
  strict_eq js inactive (VBool true) = true →
  RoomLeft js h args w = (inr r, w') →
  ResultCode r ≠ 0%Z.
Proof.
  intros Hg HA Hslot Hinactive Htrue. revert r w'.
  pose proof (checkWebhookArgs_validation js h args (getISOTimestamp h) w) as Hv.
  pose (P := λ res : (thrown + Response) * World,
    ∀ r w', res = (inr r, w') → ResultCode r ≠ 0%Z).
  change (P (RoomLeft js h args w)).
  unfold roomOf, slotOf in *. apply prop_stored in HA.
  unfold RoomLeft. unfold_m.
  destruct (checkWebhookArgs js h args (getISOTimestamp h) w) as [[[e|v]|[]] w1] eqn:Hcheck;
    destruct Hv as [Hgr Hv]; cbn in Hgr, Hv.
  - caught. intros r w' [= <- <-]. cbn.
    rewrite !elem_of_cons, elem_of_nil in Hv. lia.
  - done.
  - subst w1. do 3 step.
    2: { caught. by intros r w' [= <- <-]. }
    rewrite !HA.
    exec.
    all: caught.
    all: try (by intros r w' [= <- <-]).
    all: intros r w' [= <- <-]; exfalso.
    all: apply negb_false_iff, bool_decide_eq_true in E0.
    all: rewrite ?(prop_lookup _ _ _ Hslot) in *.
    all: try congruence.
    all: change (prop LeaveReason "PlayerTtlTimedOut") with (VStr "102") in *.
    all: unfold strict_ne in *.
    all: rewrite (leave_type_not _ _ _ E0) in * by done.
    all: done.
Qed.

Lemma getSharedGroupEntry_run id key w :
  getSharedGroupEntry js id key w =
  match groups w !! to_string js id with
  | None => (inl (apiError "InvalidSharedGroupId"), w)
  | Some g =>
      if decide (map_Forall (λ _ v, is_Some (JSON_parse js v))
                   (filter (λ kv, kv.1 ∈ [to_string js key]) g))
      then (inr (omap (JSON_parse js) (filter (λ kv, kv.1 ∈ [to_string js key]) g)), w)
      else (inl (SyntaxError "Unexpected token in JSON"), w)
  end.
Proof.
  unfold getSharedGroupEntry, getSharedGroupData, server_GetSharedGroupData.
  cbv [mbind M_bind mret M_ret throw]. cbn [fmap option_fmap option_map map].
  destruct (groups w !! to_string js id); [|done].
  by destruct (decide _).
Qed.

Lemma prop_entry_other (g : gmap string val) key k :
  k ≠ key →
  prop (omap (JSON_parse js) (filter (λ kv : string * val, kv.1 ∈ [key]) g)) k = VUndef.
Proof.
  intros Hne. unfold prop. rewrite lookup_omap.
  rewrite (map_lookup_filter_None_2 _ g k); [done|].
  right. intros x _ Hin. cbn in Hin. apply list_elem_of_singleton in Hin. done.
Qed.

(** X21. A Load for a room that is not called "Creation" never succeeds:
    the object read from the list of games has the room id as its only
    key. *)
Lemma load_never_succeeds h args w r w' :
  strict_eq js (prop args "Type") (VStr "Load") = true →
  roomOf js args ≠ "Creation" →
  RoomCreated js h args w = (inr r, w') →
  ResultCode r ≠ 0%Z.
Proof.
  intros Hload Hroom. revert r w'.
  pose proof (checkWebhookArgs_validation js h args (getISOTimestamp h) w) as Hv.
  pose (P := λ res : (thrown + Response) * World,
    ∀ r w', res = (inr r, w') → ResultCode r ≠ 0%Z).
  change (P (RoomCreated js h args w)).
  unfold roomOf in *.
  assert (strict_eq js (prop args "Type") (VStr "Create") = false) as Hcreate.
  { apply strict_eq_VStr in Hload. by rewrite (strict_eq_as_string _ _ _ _ Hload). }
  unfold RoomCreated. unfold_m. step.
  { by intros r w' [=]. }
  destruct (checkWebhookArgs js h args (getISOTimestamp h) w) as [[[e|v']|[]] w1] eqn:Hcheck;
    destruct Hv as [Hgr Hv]; cbn in Hgr, Hv.
  - caught. intros r w' [= <- <-]. cbn.
    rewrite !elem_of_cons, elem_of_nil in Hv. lia.
  - done.
  - subst w1. rewrite Hcreate, Hload. cbv beta iota.
    rewrite getSharedGroupEntry_run.
    step. 2: { caught. by intros r w' [= <- <-]. }
    step. 2: { caught. by intros r w' [= <- <-]. }
    rewrite prop_entry_other by done.
    cbn [get]. cbv beta iota. caught. by intros r w' [= <- <-].
Qed.

(** [RoomCreated] reads [args.CreateOptions.MaxPlayers] before its [try]:
    without create options the [TypeError] leaves the handler, and the store
    is untouched. *)
Lemma created_without_options h args w :
  undefinedOrNull (prop args "CreateOptions") = true →
  ∃ e, RoomCreated js h args w = (inl e, w).
Proof.
  intros Hnone. unfold RoomCreated. unfold_m.
  destruct (prop args "CreateOptions"); try discriminate Hnone; cbn; eauto.
Qed.




End Failures.

(** C1. The capacity check of a new join compares the roster with
    [args.RoomOptions.MaxPlayers], not with the [MaxPlayers] of the room:
    G1 was created for two players and holds two, and a third join with
    actor number [NextActorNr] whose event says four is accepted, leaving
    three actors in the roster and [NextActorNr] at 4. *)
Theorem join_past_capacity js :
  record js (full js) "G1" "RoomOptions" = Some (createOptions 2 0) ∧
  rosterSize js (full js) "G1" = Some (VNum 2) ∧
  record js (full js) "G1" "NextActorNr" = Some (VNum 3) ∧
  ∃ w',
    RoomJoined js (host (VStr "U3") "t3") (joinEventWith 4 "U3" 3) (full js)
    = (inr OK, w') ∧
    rosterSize js w' "G1" = Some (VNum 3) ∧
    record js w' "G1" "NextActorNr" = Some (VNum 4).
Proof.
  split_and!; [vm_compute; reflexivity..|].
  exists (RoomJoined js (host (VStr "U3") "t3") (joinEventWith 4 "U3" 3) (full js)).2.
  split_and!; vm_compute; reflexivity.
Qed.

(** C2. A rejoin reads [data.ActiveActors], which no handler ever writes:
    after U1 has left G1 as inactive, with a player TTL set, the Join of U1
    for its own slot returns a [TypeError] as failure and changes nothing,
    whether or not the event carries room options. *)
Theorem rejoin_fails js :
  record js (away js) "G1" "RoomOptions" = Some (createOptions 2 60000) ∧
  record js (away js) "G1" "Actors" = Some awayRoster ∧
  record js (away js) "G1" "NextActorNr" = Some (VNum 2) ∧
  record js (away js) "G1" "ActiveActors" = None ∧
  RoomJoined js (host (VStr "U1") "t3") (joinEvent "U1" 1) (away js)
  = (inr (unexpected "TypeError: Cannot read property '1' of undefined"), away js) ∧
  RoomJoined js (host (VStr "U1") "t3") (joinEventWith 2 "U1" 1) (away js)
  = (inr (unexpected "TypeError: Cannot read property '1' of undefined"), away js).
Proof. split_and!; vm_compute; reflexivity. Qed.

(** C3. [RoomCreated] reads [args.CreateOptions.MaxPlayers] before its
    [try]: for a Create or a Load event without creation options the
    [TypeError] leaves the handler, and no result is returned. *)
Theorem created_without_options_throws js :
  RoomCreated js (host (VStr "U1") "t1") bareCreateEvent store0
  = (inl (TypeError "Cannot read property 'MaxPlayers' of undefined"), store0) ∧
  RoomCreated js (host (VStr "U1") "t1") bareLoadEvent store0
  = (inl (TypeError "Cannot read property 'MaxPlayers' of undefined"), store0).
Proof. split; vm_compute; reflexivity. Qed.

(** C5. The exemption for an expired player TTL compares [args.Type], the
    name of the leave reason, with the code [LeaveReason.PlayerTtlTimedOut]:
    the leave of an inactive actor whose TTL has run out passes validation
    and is rejected like any other leave of an inactive actor. *)
Theorem ttl_leave_rejected js :
  record js (away js) "G1" "Actors" = Some awayRoster ∧
  checkWebhookArgs js (host (VStr "U1") "t3") ttlEvent "t3" (away js)
  = (inr (), away js) ∧
  (RoomLeft js (host (VStr "U1") "t3") ttlEvent (away js)).1
  = inr {| ResultCode := 2; Message := "Inactive actors cant leave"; State := None |}.
Proof. split_and!; vm_compute; reflexivity. Qed.

(** C8. A Load reads the entry of the list of games as if it were the
    record, where it is an object holding the record under the room id:
    after a successful Save, which puts the state into the creator's list
    of games, the Load of the same room returns a [TypeError] as failure
    and no state, whether or not it may create the room. *)
Theorem saved_state_not_loaded js :
  (RoomClosed js (host VUndef "t2") (saveEvent 1 gameState) (created js 2 0)).1
  = inr OK ∧
  (indexEntry js (saved js) "U1_GamesList" "G1" ≫= λ e,
     match get js e "State" with inr s => Some s | inl _ => None end)
  = Some gameState ∧
  (RoomCreated js (host (VStr "U1") "t3") (loadEvent false) (saved js)).1
  = inr (unexpected "TypeError: Cannot read property 'UserId' of undefined") ∧
  (RoomCreated js (host (VStr "U1") "t3") (loadEvent true) (saved js)).1
  = inr (unexpected "TypeError: Cannot read property 'UserId' of undefined").
Proof. split_and!; vm_compute; reflexivity. Qed.

(** C7 as stated fails: a Close with actor count 1 against the roster of
    size 2 is rejected by validation, with code 2, not by the count check of
    the handler. *)
Lemma close_one_of_two :
  (∀ js,
     rosterSize js (full js) "G1" = Some (VNum 2) ∧
     (RoomClosed js (host VUndef "t3") (closeEvent 1) (full js)).1
     = inr closeWithActors) ∧
  closeWithActors ≠ countMismatch.
Proof. split; [intros js; split; vm_compute; reflexivity|done]. Qed.

(** C9 as stated fails: the reason codes validation rejects as unexpected
    are four, so no list of three holds exactly them. *)
Lemma not_three_reason_codes :
  ¬ ∃ l : list string,
      length l = 3 ∧ ∀ js code, unexpectedLeaveReason js code ↔ code ∈ l.
Proof.
  intros (l & Hlen & Hl).
  assert (∀ code type,
            LeaveReason !! type = Some (VStr code) →
            (checkWebhookArgs engine0 (host (VStr "U1") "t1")
               (leaveEvent type code "U1" 1 false) "t1" store0).1
            = inl (Photon {| PhotonException.ResultCode := 2;
                             PhotonException.Message := "Unexpected LeaveReason";
                             PhotonException.Timestamp := Some "t1";
                             PhotonException.Data :=
                               VObj (leaveEvent type code "U1" 1 false) |}) →
            code ∈ l) as Hin.
  { intros code type Hty Hrun. apply (Hl engine0). by exists type. }
  assert (["1"; "100"; "103"; "105"] ⊆ l) as Hsub.
  { intros code Hc. rewrite !elem_of_cons, elem_of_nil in Hc.
    destruct Hc as [->|[->|[->|[->|[]]]]].
    - apply (Hin "1" "ClientTimeoutDisconnect"); vm_compute; reflexivity.
    - apply (Hin "100" "SwitchRoom"); vm_compute; reflexivity.
    - apply (Hin "103" "PeerLastTouchTimedout"); vm_compute; reflexivity.
    - apply (Hin "105" "PluginFailedJoin"); vm_compute; reflexivity. }
  assert (NoDup ["1"; "100"; "103"; "105"]) as Hnd.
  { repeat (apply NoDup_cons; split; [by rewrite ?elem_of_cons, elem_of_nil; intuition discriminate|]).
    apply NoDup_nil_2. }
  pose proof (submseteq_length _ _ (NoDup_submseteq _ _ Hnd Hsub)) as Hle.
  simpl in Hle. lia.
Qed.

(** Closing G1 once U1 has left it for good. *)
Lemma close_success_empty_roster_witness :
  prop (closeEvent 0) "ActorCount" = VNum 0 ∧
  ∃ data,
    getSharedGroupData engine0 (prop (closeEvent 0) "GameId") None (emptied engine0)
    = (inr data, emptied engine0) ∧
    keys_length engine0 (prop data "Actors") = inr (VNum 0).
Proof.
  apply (close_success_empty_roster engine0 (host VUndef "t3") (closeEvent 0)
           (emptied engine0) OK
           (RoomClosed engine0 (host VUndef "t3") (closeEvent 0) (emptied engine0)).2);
    vm_compute; reflexivity.
Defined.

(** Closing G1 with actor count 1 while it holds two actors. *)
Lemma close_count_differs_witness :
  ∃ r w',
    RoomClosed engine0 (host VUndef "t3") (closeEvent 1) (full engine0) = (inr r, w') ∧
    ResultCode r ≠ 0%Z ∧
    groups w' = groups (full engine0) ∧
    (checkWebhookArgs engine0 (host VUndef "t3") (closeEvent 1) "t3" (full engine0)
     = (inr (), full engine0) → r = countMismatch) ∧
    (prop (closeEvent 1) "ActorCount" ≠ VNum 0 →
     (ResultCode r = 1 ∨ ResultCode r = 2)%Z ∧
     (envelope (closeEvent 1) →
      undefinedOrNull (prop (closeEvent 1) "ActorCount") = false →
      undefinedOrNull (prop (closeEvent 1) "State2") = true →
      r = closeWithActors)).
Proof.
  apply (close_count_differs engine0 (host VUndef "t3") (closeEvent 1) (full engine0)
           (omap (JSON_parse engine0) (default ∅ (groups (full engine0) !! "G1"))) 2).
  - vm_compute; reflexivity.
  - vm_compute; reflexivity.
  - vm_compute; reflexivity.
  - vm_compute; discriminate.
Defined.

(** A voluntary leave, whose reason code 101 is none of the four. *)
Lemma leave_validation_witness :
  checkWebhookArgs engine0 (host (VStr "U1") "t1")
    (leaveEvent "LeaveRequest" "101" "U1" 1 false) "t1" store0
  = (inr (), store0).
Proof.
  apply (leave_validation engine0 (host (VStr "U1") "t1")
           (leaveEvent "LeaveRequest" "101" "U1" 1 false) "t1" store0 "101").
  - vm_compute; reflexivity.
  - repeat split; vm_compute; reflexivity.
  - repeat split; vm_compute; reflexivity.
  - split; [vm_compute; reflexivity|]. split; [vm_compute; reflexivity|].
    rewrite !elem_of_cons, elem_of_nil. intros [H|[H|[H|[H|[]]]]]; discriminate H.
Defined.



(** ** The store adapter: what is written and what is read back *)

Section Adapter.
Context (js : Engine).

Lemma filter_key (g : gmap string val) k :
  filter (λ kv : string * val, kv.1 ∈ [k]) g
  = match g !! k with Some x => {[ k := x ]} | None => ∅ end.
Proof.
  apply map_eq. intros i. destruct (decide (i = k)) as [->|Hne].
  - destruct (g !! k) as [x|] eqn:Hk.
    + rewrite lookup_singleton_eq. apply map_lookup_filter_Some. split; [done|].
      cbn. apply list_elem_of_singleton. done.
    + rewrite lookup_empty. apply map_lookup_filter_None. by left.
  - transitivity (@None val).
    + apply map_lookup_filter_None. right. intros x _ Hin. cbn in Hin.
      by apply list_elem_of_singleton in Hin.
    + destruct (g !! k); by rewrite ?lookup_singleton_ne, ?lookup_empty.
Qed.

Lemma getSharedGroupEntry_stored id key w g :
  groups w !! to_string js id = Some g →
  getSharedGroupEntry js id key w =
  match g !! to_string js key with
  | None => (inr ∅, w)
  | Some x =>
      match JSON_parse js x with
      | Some v => (inr {[ to_string js key := v ]}, w)
      | None => (inl (SyntaxError "Unexpected token in JSON"), w)
      end
  end.
Proof.
  intros Hg. rewrite getSharedGroupEntry_run, Hg, filter_key.
  destruct (g !! to_string js key) as [x|].
  - destruct (decide _) as [Hall|Hnot].
    + destruct (Hall _ _ (lookup_singleton_eq _ _)) as [v Hv].
      rewrite Hv. by rewrite (omap_singleton_Some _ _ _ _ Hv).
    + destruct (JSON_parse js x) as [v|] eqn:Hv; [|done].
      exfalso. apply Hnot. intros i y [<- <-]%lookup_singleton_Some. by rewrite Hv.
  - destruct (decide _) as [Hall|Hnot]; [by rewrite omap_empty|].
    exfalso. apply Hnot. apply map_Forall_empty.
Qed.

Lemma lookup_updated_entry (g : gmap string val) k v :
  merge updateKey {[ k := v ]} g !! k = updateKey (Some v) (g !! k).
Proof. rewrite lookup_merge, lookup_singleton_eq. by destruct (g !! k), v. Qed.

Lemma lookup_updated_other (g : gmap string val) k k' v :
  k' ≠ k → merge updateKey {[ k := v ]} g !! k' = g !! k'.
Proof. intros. rewrite lookup_merge, lookup_singleton_ne by done. by destruct (g !! k'). Qed.

(** X1. A value that is neither null, undefined nor a string, written to an
    existing shared group with [updateSharedGroupEntry], is read back by
    [getSharedGroupEntry] as [JSON.parse(JSON.stringify(value))] under its
    key; the write replaces that group only, and in it that key only. *)
Theorem entry_round_trip id key v w g :
  groups w !! to_string js id = Some g →
  undefinedOrNull v = false →
  isString v = false →
  ∃ w' g',
    updateSharedGroupEntry js id key v w = (inr (), w') ∧
    groups w' = <[to_string js id := g']> (groups w) ∧
    (∀ k, k ≠ to_string js key → g' !! k = g !! k) ∧
    getSharedGroupEntry js id key w' = (inr {[ to_string js key := json_norm v ]}, w').
Proof.
  intros Hg Hnull Hstr. rewrite updateSharedGroupEntry_run, Hg.
  eexists _, _. split; [done|]. split; [done|]. split.
  - intros k Hk. by apply lookup_updated_other.
  - erewrite getSharedGroupEntry_stored; [|cbn; apply lookup_insert_eq].
    rewrite lookup_updated_entry. unfold encodeField. rewrite Hnull, Hstr. done.
Qed.

(** X2. After [deleteSharedGroupEntry] on an existing shared group the key
    is gone from it, [getSharedGroupEntry] returns an object without
    properties, and nothing else has changed. *)
Theorem entry_deleted id key w g :
  groups w !! to_string js id = Some g →
  ∃ w',
    deleteSharedGroupEntry js id key w = (inr (), w') ∧
    groups w' = <[to_string js id := delete (to_string js key) g]> (groups w) ∧
    titleData w' = titleData w ∧
    getSharedGroupEntry js id key w' = (inr ∅, w').
Proof.
  intros Hg. unfold deleteSharedGroupEntry.
  rewrite updateSharedGroupEntry_run, Hg, merge_updateKey_null.
  eexists. split; [done|]. split; [done|]. split; [done|].
  erewrite getSharedGroupEntry_stored; [|cbn; apply lookup_insert_eq].
  by rewrite lookup_delete_eq.
Qed.

(** X3. A string is stored as it is, not as its JSON text, and is read back
    through [JSON.parse] all the same: [getSharedGroupEntry] returns what
    the string parses to, and throws a [SyntaxError] if it is no JSON
    text. *)
Theorem string_entry_read_back id key s w g :
  groups w !! to_string js id = Some g →
  ∃ w' g',
    updateSharedGroupEntry js id key (VStr s) w = (inr (), w') ∧
    groups w' !! to_string js id = Some g' ∧
    g' !! to_string js key = Some (VStr s) ∧
    getSharedGroupEntry js id key w' =
      match JSON_parse_raw js s with
      | Some x => (inr {[ to_string js key := x ]}, w')
      | None => (inl (SyntaxError "Unexpected token in JSON"), w')
      end.
Proof.
  intros Hg. rewrite updateSharedGroupEntry_run, Hg.
  eexists _, _. split; [done|]. split; [cbn; apply lookup_insert_eq|].
  rewrite lookup_updated_entry. split; [done|].
  erewrite getSharedGroupEntry_stored; [|cbn; apply lookup_insert_eq].
  rewrite lookup_updated_entry. done.
Qed.

(** X4. A record whose fields are neither null, undefined nor strings,
    written to a shared group whose values all parse, is read back by
    [getSharedGroupData] field by field as [JSON.parse(JSON.stringify(...))];
    the fields of the group that the record does not have are read as
    before. *)
Theorem record_round_trip id (data : gmap string val) w g :
  groups w !! to_string js id = Some g →
  map_Forall (λ _ v, is_Some (JSON_parse js v)) g →
  map_Forall (λ _ v, undefinedOrNull v = false ∧ isString v = false) data →
  ∃ w',
    updateSharedGroupData js id data w = (inr (JSON_stringify <$> data), w') ∧
    getSharedGroupData js id None w'
    = (inr ((json_norm <$> data) ∪ omap (JSON_parse js) g), w').
Proof.
  intros Hg Hparse Hdata. rewrite updateSharedGroupData_run, Hg.
  eexists. split.
  { do 2 f_equal. apply map_fmap_ext. intros k v Hk.
    destruct (Hdata _ _ Hk) as [Hn Hs]. unfold encodeField. by rewrite Hn, Hs. }
  rewrite getSharedGroupData_all. cbn.
  rewrite lookup_insert_eq.
  assert (∀ k, merge updateKey (encodeField <$> data) g !! k
               = match data !! k with
                 | Some v => Some (VJson v)
                 | None => g !! k
                 end) as Hlook.
  { intros k. rewrite lookup_merge, lookup_fmap.
    destruct (data !! k) as [v|] eqn:Hk; cbn; [|by destruct (g !! k)].
    destruct (Hdata _ _ Hk) as [Hn Hs]. unfold encodeField. rewrite Hn, Hs. cbn.
    by destruct (g !! k). }
  destruct (decide _) as [_|Hnot].
  - f_equal. f_equal. apply map_eq. intros k.
    rewrite lookup_omap, Hlook, lookup_union, lookup_fmap, lookup_omap.
    destruct (data !! k) as [v|]; cbn; [|by destruct (g !! k ≫= JSON_parse js)].
    by destruct (g !! k ≫= JSON_parse js).
  - exfalso. apply Hnot. intros k x. rewrite Hlook.
    destruct (data !! k); [by intros [= <-]|]. apply Hparse.
Qed.

End Adapter.

Lemma entry_round_trip_witness :
  ∃ w' g',
    updateSharedGroupEntry engine0 (VStr "G") (VStr "k") (VObj {[ "a" := VNaN ]}) shelf
    = (inr (), w') ∧
    groups w' = <["G" := g']> (groups shelf) ∧
    (∀ k, k ≠ "k" → g' !! k = ({[ "k" := VJson (VNum 1) ]} : gmap string val) !! k) ∧
    getSharedGroupEntry engine0 (VStr "G") (VStr "k") w'
    = (inr {[ "k" := VObj {[ "a" := VNull ]} ]}, w').
Proof.
  exact (entry_round_trip engine0 (VStr "G") (VStr "k") (VObj {[ "a" := VNaN ]}) shelf
           {[ "k" := VJson (VNum 1) ]} eq_refl eq_refl eq_refl).
Defined.

Lemma entry_deleted_witness :
  ∃ w',
    deleteSharedGroupEntry engine0 (VStr "G") (VStr "k") shelf = (inr (), w') ∧
    groups w' = <["G" := delete "k" {[ "k" := VJson (VNum 1) ]}]> (groups shelf) ∧
    titleData w' = titleData shelf ∧
    getSharedGroupEntry engine0 (VStr "G") (VStr "k") w' = (inr ∅, w').
Proof.
  exact (entry_deleted engine0 (VStr "G") (VStr "k") shelf {[ "k" := VJson (VNum 1) ]} eq_refl).
Defined.

Lemma string_entry_read_back_witness :
  ∃ w' g',
    updateSharedGroupEntry engine0 (VStr "G") (VStr "k") (VStr "hello") shelf = (inr (), w') ∧
    groups w' !! "G" = Some g' ∧
    g' !! "k" = Some (VStr "hello") ∧
    getSharedGroupEntry engine0 (VStr "G") (VStr "k") w'
    = (inl (SyntaxError "Unexpected token in JSON"), w').
Proof.
  exact (string_entry_read_back engine0 (VStr "G") (VStr "k") "hello" shelf
           {[ "k" := VJson (VNum 1) ]} eq_refl).
Defined.

Lemma record_round_trip_witness :
  ∃ w',
    updateSharedGroupData engine0 (VStr "G") {[ "n" := VNum 2 ]} shelf
    = (inr (JSON_stringify <$> {[ "n" := VNum 2 ]}), w') ∧
    getSharedGroupData engine0 (VStr "G") None w'
    = (inr ((json_norm <$> {[ "n" := VNum 2 ]}) ∪ omap (JSON_parse engine0) {[ "k" := VJson (VNum 1) ]}), w').
Proof.
  apply (record_round_trip engine0 (VStr "G") {[ "n" := VNum 2 ]} shelf
           {[ "k" := VJson (VNum 1) ]}).
  - reflexivity.
  - apply map_Forall_singleton. by eexists.
  - apply map_Forall_singleton. done.
Defined.

(** ** Validation and the handlers, by outcome *)

Section Outcomes.
Context (js : Engine).

Lemma checkWebhookArgs_outcome h args ts w :
  validationOutcome js h args ts w (checkWebhookArgs js h args ts w).
Proof.
  unfold checkWebhookArgs. unfold_m.
  exec.
  all: unfold validationOutcome, logs, logKey, logEntry, eventTypes; cbn.
  all: try match goal with H : get _ _ _ = inl _ |- _ =>
         apply get_inl in H; congruence end.
  all: try (split; [reflexivity|]; split; [rewrite ?elem_of_cons; auto 10|auto]).
  all: split; [by destruct w|].
  all: repeat match goal with
       | H : strict_eq js _ (VStr _) = true |- _ =>
           apply strict_eq_VStr, as_string_to_string in H end.
  all: first [ solve [left; rewrite !elem_of_cons; auto 20]
             | right;
               match goal with H : bool_decide _ = true |- _ =>
                 apply bool_decide_eq_true in H; exact H end ].
Qed.

(** The response to an exception thrown by validation. *)
Lemma rejected_outcome h k args w p :
  PhotonException.ResultCode p ∈ [1; 2; 3]%Z →
  outcome js h k args w
    {| ResultCode := PhotonException.ResultCode p;
       Message := PhotonException.Message p; State := None |}
    (logs h p w).
Proof.
  intros Hcode. right; right. split.
  { cbn. rewrite !elem_of_cons in *. intuition. }
  split; [|done]. by eexists _, _.
Qed.

Ltac leaf :=
  first
    [ solve [ right; right;
              split; [cbn; rewrite !elem_of_cons; auto 10|];
              split; [eexists _, _; reflexivity|reflexivity] ]
    | solve [ right; left; split; [reflexivity|]; split; reflexivity ]
    | left; split; [reflexivity|]; split; [assumption|]; split; [|reflexivity] ].

Lemma joined_outcome h args w r w' :
  RoomJoined js h args w = (inr r, w') → outcome js h Joined args w r w'.
Proof.
  revert r w'.
  pose proof (checkWebhookArgs_outcome h args (getISOTimestamp h) w) as Hv.
  pose (P := λ res : (thrown + Response) * World,
    ∀ r w', res = (inr r, w') → outcome js h Joined args w r w').
  change (P (RoomJoined js h args w)).
  unfold RoomJoined. unfold_m.
  destruct (checkWebhookArgs js h args (getISOTimestamp h) w) as [[[e|v]|[]] w1] eqn:Hcheck;
    cbn in Hv.
  - destruct Hv as (-> & Hcode & _). caught. intros r w' [= <- <-].
    by apply rejected_outcome.
  - done.
  - destruct Hv as [-> _]. exec.
    all: caught.
    all: intros r w' [= <- <-].
    all: leaf.
    all: cbn; by apply negb_false_iff.
Qed.

Lemma left_outcome h args w r w' :
  RoomLeft js h args w = (inr r, w') → outcome js h Left args w r w'.
Proof.
  revert r w'.
  pose proof (checkWebhookArgs_outcome h args (getISOTimestamp h) w) as Hv.
  pose (P := λ res : (thrown + Response) * World,
    ∀ r w', res = (inr r, w') → outcome js h Left args w r w').
  change (P (RoomLeft js h args w)).
  unfold RoomLeft. unfold_m.
  destruct (checkWebhookArgs js h args (getISOTimestamp h) w) as [[[e|v]|[]] w1] eqn:Hcheck;
    cbn in Hv.
  - destruct Hv as (-> & Hcode & _). caught. intros r w' [= <- <-].
    by apply rejected_outcome.
  - done.
  - destruct Hv as [-> _]. exec.
    all: caught.
    all: intros r w' [= <- <-].
    all: leaf.
    all: cbn.
    all: match goal with
         | H : negb (bool_decide (is_Some (LeaveReason !! _))) = false |- _ =>
             apply negb_false_iff, bool_decide_eq_true in H; exact H
         end.
Qed.

Lemma closed_outcome h args w r w' :
  RoomClosed js h args w = (inr r, w') → outcome js h Closed args w r w'.
Proof.
  revert r w'.
  pose proof (checkWebhookArgs_outcome h args (getISOTimestamp h) w) as Hv.
  pose (P := λ res : (thrown + Response) * World,
    ∀ r w', res = (inr r, w') → outcome js h Closed args w r w').
  change (P (RoomClosed js h args w)).
  unfold RoomClosed. unfold_m.
  destruct (checkWebhookArgs js h args (getISOTimestamp h) w) as [[[e|v]|[]] w1] eqn:Hcheck;
    cbn in Hv.
  - destruct Hv as (-> & Hcode & _). caught. intros r w' [= <- <-].
    by apply rejected_outcome.
  - done.
  - destruct Hv as [-> _]. exec.
    all: caught.
    all: intros r w' [= <- <-].
    all: leaf.
    all: cbn; auto.
Qed.

Lemma created_outcome h args w r w' :
  RoomCreated js h args w = (inr r, w') → outcome js h Created args w r w'.
Proof.
  revert r w'.
  pose proof (checkWebhookArgs_outcome h args (getISOTimestamp h) w) as Hv.
  pose (P := λ res : (thrown + Response) * World,
    ∀ r w', res = (inr r, w') → outcome js h Created args w r w').
  change (P (RoomCreated js h args w)).
  unfold RoomCreated. unfold_m. step.
  { by intros r w' [=]. }
  destruct (checkWebhookArgs js h args (getISOTimestamp h) w) as [[[e|v']|[]] w1] eqn:Hcheck;
    cbn in Hv.
  - destruct Hv as (-> & Hcode & _). caught. intros r w' [= <- <-].
    by apply rejected_outcome.
  - done.
  - destruct Hv as [-> _].
    cbv beta iota zeta delta [onGameCreated]. unfold_m.
    repeat first [rewrite getSharedGroupEntry_run | step].
    all: caught.
    all: intros r w' [= <- <-].
    all: leaf.
    all: cbn; auto.
Qed.

Lemma handler_outcome h k args w r w' :
  handler js h k args w = (inr r, w') → outcome js h k args w r w'.
Proof.
  destruct k; cbn;
    eauto using created_outcome, joined_outcome, left_outcome, closed_outcome.
Qed.

End Outcomes.

(** ** Closing and saving a room *)

Section Closing.
Context (js : Engine).

Lemma prop_parsed g k : prop (omap (JSON_parse js) g) k = default VUndef (stored js g k).
Proof. unfold prop, stored. by rewrite lookup_omap. Qed.

Lemma merge_updateKey_string (k : string) (v : val) (g : gmap string val) :
  isString v = true → merge updateKey {[ k := v ]} g = <[k := v]> g.
Proof.
  intros Hs. apply map_eq. intros i. rewrite lookup_merge.
  destruct (decide (i = k)) as [->|Hne].
  - rewrite lookup_singleton_eq, lookup_insert_eq. by destruct (g !! k), v.
  - rewrite lookup_singleton_ne, lookup_insert_ne by done. by destruct (g !! i).
Qed.

(** X18. A Close or Save that does not succeed leaves every shared group as it
    was. *)
Theorem close_failure_changes_nothing h args w r w' :
  RoomClosed js h args w = (inr r, w') →
  ResultCode r ≠ 0%Z →
  groups w' = groups w.
Proof.
  revert r w'.
  pose proof (checkWebhookArgs_outcome js h args (getISOTimestamp h) w) as Hv.
  pose (P := λ res : (thrown + Response) * World,
    ∀ r w', res = (inr r, w') → ResultCode r ≠ 0%Z → groups w' = groups w).
  change (P (RoomClosed js h args w)).
  unfold RoomClosed. unfold_m.
  destruct (checkWebhookArgs js h args (getISOTimestamp h) w) as [[[e|v]|[]] w1] eqn:Hcheck;
    cbn in Hv.
  - destruct Hv as (-> & Hcode & _). caught. by intros r w' [= <- <-].
  - done.
  - destruct Hv as [-> _]. exec.
    all: caught.
    all: intros r w' [= <- <-] Hr; try done.
    all: exfalso.
    all: match goal with
         | H : <[_ := _]> _ !! _ = None |- _ =>
             apply lookup_insert_None in H as [H _]; congruence
         end.
Qed.

(** X19. A Close that succeeds removes the entry of the room from the list of
    games of the room's creator, then deletes the shared group of the room;
    it changes nothing else. *)
Theorem close_success h args w r w' g :
  strict_eq js (prop args "Type") (VStr "Close") = true →
  RoomClosed js h args w = (inr r, w') →
  ResultCode r = 0%Z →
  groups w !! roomOf js args = Some g →
  ∃ list idx,
    creatorList js g = Some list ∧
    groups w !! list = Some idx ∧
    groups w' = delete (roomOf js args) (<[list := delete (roomOf js args) idx]> (groups w)) ∧
    titleData w' = titleData w.
Proof.
  intros Hc Hrun Hr Hg. revert Hrun Hr. revert r w'.
  pose proof (checkWebhookArgs_outcome js h args (getISOTimestamp h) w) as Hv.
  pose (P := λ res : (thrown + Response) * World,
    ∀ r w', res = (inr r, w') → ResultCode r = 0%Z →
    ∃ list idx,
      creatorList js g = Some list ∧
      groups w !! list = Some idx ∧
      groups w' = delete (roomOf js args) (<[list := delete (roomOf js args) idx]> (groups w)) ∧
      titleData w' = titleData w).
  change (P (RoomClosed js h args w)).
  unfold roomOf, creatorList in *.
  unfold RoomClosed. unfold_m.
  destruct (checkWebhookArgs js h args (getISOTimestamp h) w) as [[[e|v]|[]] w1] eqn:Hcheck;
    cbn in Hv.
  - destruct Hv as (-> & Hcode & _). caught. intros r w' [= <- <-] Hr. cbn in Hr.
    rewrite Hr, !elem_of_cons, elem_of_nil in Hcode. lia.
  - done.
  - destruct Hv as [-> _]. rewrite Hc. exec.
    all: caught.
    all: intros r w' [= <- <-] Hr; try discriminate Hr.
    all: cbn [groups titleData].
    all: rewrite merge_updateKey_null, <- prop_parsed.
    all: match goal with H : get js _ "UserId" = inr _ |- _ => rewrite H end.
    all: eexists _, _; split; [reflexivity|]; split; [eassumption|done].
Qed.

Lemma save_run h args w r w' g :
  strict_eq js (prop args "Type") (VStr "Save") = true →
  RoomClosed js h args w = (inr r, w') →
  ResultCode r = 0%Z →
  groups w !! roomOf js args = Some g →
  ∃ list idx entry,
    creatorList js g = Some list ∧
    groups w !! list = Some idx ∧
    groups w'
    = delete (roomOf js args)
        (<[list := <[roomOf js args := JSON_stringify (VObj entry)]> idx]> (groups w)) ∧
    entry !! "State" = Some (prop args "State") ∧
    (∀ k, k ≠ "State" → k ≠ "SaveEvents" → entry !! k = stored js g k) ∧
    titleData w' = titleData w.
Proof.
  intros Hs Hrun Hr Hg. revert Hrun Hr. revert r w'.
  pose proof (checkWebhookArgs_outcome js h args (getISOTimestamp h) w) as Hv.
  pose (P := λ res : (thrown + Response) * World,
    ∀ r w', res = (inr r, w') → ResultCode r = 0%Z →
    ∃ list idx entry,
      creatorList js g = Some list ∧
      groups w !! list = Some idx ∧
      groups w'
      = delete (roomOf js args)
          (<[list := <[roomOf js args := JSON_stringify (VObj entry)]> idx]> (groups w)) ∧
      entry !! "State" = Some (prop args "State") ∧
      (∀ k, k ≠ "State" → k ≠ "SaveEvents" → entry !! k = stored js g k) ∧
      titleData w' = titleData w).
  change (P (RoomClosed js h args w)).
  unfold roomOf, creatorList in *.
  assert (strict_eq js (prop args "Type") (VStr "Close") = false) as Hc.
  { apply strict_eq_VStr in Hs. by rewrite (strict_eq_as_string _ _ _ _ Hs). }
  unfold RoomClosed. unfold_m.
  destruct (checkWebhookArgs js h args (getISOTimestamp h) w) as [[[e|v]|[]] w1] eqn:Hcheck;
    cbn in Hv.
  - destruct Hv as (-> & Hcode & _). caught. intros r w' [= <- <-] Hr. cbn in Hr.
    rewrite Hr, !elem_of_cons, elem_of_nil in Hcode. lia.
  - done.
  - destruct Hv as [-> _]. rewrite Hc, Hs. exec.
    all: caught.
    all: intros r w' [= <- <-] Hr; try discriminate Hr.
    all: cbn [groups titleData].
    all: match goal with H : get js (prop _ "Creation") "UserId" = inr _ |- _ =>
           rewrite !prop_insert_ne in H by done;
           destruct (undefinedOrNull (prop (omap (JSON_parse js) g) "SaveEvents"));
           rewrite ?prop_insert_ne in H by done;
           rewrite prop_parsed in H; rewrite H
         end.
    all: eexists _, _, _; split; [reflexivity|]; split; [eassumption|].
    all: split; [by rewrite merge_updateKey_string|].
    all: split; [apply lookup_insert_eq|]; split; [|done].
    all: intros k HkS HkE.
    all: rewrite !lookup_insert_ne by done; unfold stored; by rewrite lookup_omap.
Qed.

(** X20. A Save that succeeds puts the record of the room, with the state of
    the event as its [State] and, but for the log of saves, otherwise as it
    was, under the room's id into the list of games of the room's creator,
    then deletes the shared group of the room; it changes nothing else. *)
Theorem save_success h args w r w' g :
  strict_eq js (prop args "Type") (VStr "Save") = true →
  RoomClosed js h args w = (inr r, w') →
  ResultCode r = 0%Z →
  groups w !! roomOf js args = Some g →
  ∃ list idx entry,
    creatorList js g = Some list ∧
    groups w !! list = Some idx ∧
    groups w'
    = delete (roomOf js args)
        (<[list := <[roomOf js args := JSON_stringify (VObj entry)]> idx]> (groups w)) ∧
    entry !! "State" = Some (prop args "State") ∧
    (∀ k, k ≠ "State" → k ≠ "SaveEvents" → entry !! k = stored js g k) ∧
    titleData w' = titleData w.
Proof. apply save_run. Qed.

End Closing.

(** ** Who may leave, and what a join adds *)

Section Actors.
Context (js : Engine).

Lemma strict_eq_trans a b c :
  strict_eq js a b = true → strict_eq js b c = true → strict_eq js a c = true.
Proof.
  destruct a, b; simpl; try discriminate; destruct c; simpl; try discriminate;
    rewrite ?Z.eqb_eq, ?String.eqb_eq, ?Bool.eqb_true_iff; congruence.
Qed.

(** X17. A leave succeeds only for an actor that is in the roster, is not
    inactive, and has the user id of the caller. *)
Theorem leave_only_own_actor h args w r w' g actors :
  RoomLeft js h args w = (inr r, w') →
  ResultCode r = 0%Z →
  groups w !! roomOf js args = Some g →
  stored js g "Actors" = Some (VObj actors) →
  ∃ a user inactive,
    actors !! slotOf js args = Some a ∧
    get js a "UserId" = inr user ∧
    strict_eq js user (currentPlayerId h) = true ∧
    get js a "Inactive" = inr inactive ∧
    strict_eq js inactive (VBool true) = false.
Proof.
  intros Hrun Hr Hg HA.
  destruct (left_outcome js h args w r w' Hrun) as [(_ & Hcheck & Hty & _)|[[Hr' _]|[Hr' _]]];
    [|rewrite Hr in Hr'; discriminate Hr'
     |rewrite Hr, !elem_of_cons, elem_of_nil in Hr'; lia].
  assert ((strict_ne js (prop args "Type") (VStr "Close")
           && strict_ne js (prop args "Type") (VStr "Save"))%bool = true) as Hfam.
  { unfold strict_ne. by rewrite !(leave_type_not js _ _ Hty). }
  pose proof (checkWebhookArgs_actor js h args (getISOTimestamp h) w Hfam) as Hactor.
  rewrite Hcheck in Hactor. destruct (Hactor eq_refl) as (_ & _ & Hcaller & _).
  revert Hrun Hr. revert r w'.
  pose (P := λ res : (thrown + Response) * World,
    ∀ r w', res = (inr r, w') → ResultCode r = 0%Z →
    ∃ a user inactive,
      actors !! slotOf js args = Some a ∧
      get js a "UserId" = inr user ∧
      strict_eq js user (currentPlayerId h) = true ∧
      get js a "Inactive" = inr inactive ∧
      strict_eq js inactive (VBool true) = false).
  change (P (RoomLeft js h args w)).
  unfold roomOf, slotOf in *. apply prop_stored in HA.
  unfold RoomLeft. unfold_m. rewrite Hcheck. do 3 step.
  2: { caught. by intros r w' [= <- <-] Hr. }
  rewrite !HA.
  assert (strict_ne js (prop args "Type") (prop LeaveReason "PlayerTtlTimedOut") = true)
    as Hne.
  { change (prop LeaveReason "PlayerTtlTimedOut") with (VStr "102").
    unfold strict_ne. by rewrite (leave_type_not js _ _ Hty). }
  rewrite Hne.
  exec.
  all: caught.
  all: try (intros r w' [= <- <-] Hr; discriminate Hr).
  all: intros r w' [= <- <-] _.
  all: match goal with
       | H : negb (bool_decide (is_Some (_ !! _))) = false |- _ =>
           apply negb_false_iff, bool_decide_eq_true in H; destruct H as [a Hslot]
       end.
  all: rewrite ?(prop_lookup _ _ _ Hslot) in *.
  all: match goal with
       | H : strict_ne _ _ (prop _ "UserId") = false |- _ =>
           apply negb_false_iff in H
       end.
  all: eexists _, _, _; split; [exact Hslot|]; split; [eassumption|].
  all: split; [eapply strict_eq_trans; eassumption|]; split; eassumption.
Qed.


End Actors.

(** ** Creating rooms, and initialising the list of games *)

Section Lists.
Context (js : Engine).

(** Validation does not look at the store. *)
Lemma checkWebhookArgs_anywhere h args ts w w' w2 :
  checkWebhookArgs js h args ts w = (inr (), w') →
  checkWebhookArgs js h args ts w2 = (inr (), w2).
Proof.
  revert w'.
  pose (P := λ res : (thrown + unit) * World,
    ∀ w', res = (inr (), w') → checkWebhookArgs js h args ts w2 = (inr (), w2)).
  change (P (checkWebhookArgs js h args ts w)).
  unfold checkWebhookArgs at 1. unfold_m.
  exec.
  all: intros w' Hrun; try discriminate Hrun; clear Hrun.
  all: pose (Q := λ res : (thrown + unit) * World, res = (inr (), w2)).
  all: change (Q (checkWebhookArgs js h args ts w2)).
  all: unfold checkWebhookArgs; unfold_m.
  all: exec.
  all: reflexivity.
Qed.

Lemma caught_apiError code :
  get js (caught (apiError code)) "Error" = inr (VObj {[ "error" := VStr code ]}).
Proof. reflexivity. Qed.

Lemma apiError_code code :
  get js (VObj {[ "error" := VStr code ]}) "error" = inr (VStr code).
Proof. reflexivity. Qed.

(** What validation has checked of a Create. *)
Lemma create_validated h args ts w w' :
  strict_eq js (prop args "Type") (VStr "Create") = true →
  checkWebhookArgs js h args ts w = (inr (), w') →
  envelope args ∧ actor js h args ∧
  undefinedOrNull (prop args "CreateOptions") = false ∧
  prop args "ActorNr" = VNum 1.
Proof.
  intros Hc. revert w'.
  pose (P := λ res : (thrown + unit) * World,
    ∀ w', res = (inr (), w') →
    envelope args ∧ actor js h args ∧
    undefinedOrNull (prop args "CreateOptions") = false ∧
    prop args "ActorNr" = VNum 1).
  change (P (checkWebhookArgs js h args ts w)).
  apply strict_eq_VStr in Hc.
  unfold checkWebhookArgs. unfold_m. unfold strict_ne.
  rewrite !(strict_eq_as_string _ _ _ _ Hc).
  cbn [negb andb orb String.eqb Ascii.eqb Bool.eqb].
  exec.
  all: intros w' Hrun; try discriminate Hrun; clear Hrun.
  all: unfold envelope, actor.
  all: repeat match goal with
       | H : negb _ = false |- _ => apply negb_false_iff in H
       end.
  all: match goal with
       | H : strict_eq js (prop _ "ActorNr") (VNum 1) = true |- _ =>
           apply strict_eq_VNum in H
       end.
  all: done.
Qed.

(** X12. [InitGameList] always answers with result code 0. It creates the
    caller's list of games, empty, if there is none, and otherwise changes
    nothing; the message tells which. *)
Theorem init_game_list h w :
  ∃ msg w',
    InitGameList js h w = (inr (reply 0 msg), w') ∧
    titleData w' = titleData w ∧
    match groups w !! indexOf js h with
    | Some _ => w' = w ∧ msg = "game list already exists."
    | None => groups w' = <[indexOf js h := ∅]> (groups w) ∧ msg = "game list created"
    end.
Proof.
  unfold InitGameList, indexOf. unfold_m. cbn [to_string].
  destruct (groups w !! getGamesListId js (currentPlayerId h)) eqn:Hlist; cbn.
  - eexists _, _. split; [reflexivity|]. done.
  - eexists _, _. split; [reflexivity|]. done.
Qed.

Lemma create_run h args w :
  checkWebhookArgs js h args (getISOTimestamp h) w = (inr (), w) →
  strict_eq js (prop args "Type") (VStr "Create") = true →
  ∃ w' g',
    RoomCreated js h args w
    = (inr (if bool_decide (is_Some (groups w !! indexOf js h)
                            ∨ indexOf js h = roomOf js args)
            then OK else unexpected "undefined: undefined"), w') ∧
    groups w' !! roomOf js args = Some g' ∧
    stored js g' "Actors"
    = Some (json_norm (VObj {[ "1" := VObj {[ "UserId" := prop args "UserId";
                                              "Inactive" := VBool false ]} ]})) ∧
    stored js g' "NextActorNr" = Some (VNum 2).
Proof.
  intros Hcheck Hc.
  pose proof (checkWebhookArgs_outcome js h args (getISOTimestamp h) w) as Hv.
  pose (P := λ res : (thrown + Response) * World,
    ∃ w' g',
      res
      = (inr (if bool_decide (is_Some (groups w !! indexOf js h)
                              ∨ indexOf js h = roomOf js args)
              then OK else unexpected "undefined: undefined"), w') ∧
      groups w' !! roomOf js args = Some g' ∧
      stored js g' "Actors"
      = Some (json_norm (VObj {[ "1" := VObj {[ "UserId" := prop args "UserId";
                                                "Inactive" := VBool false ]} ]})) ∧
      stored js g' "NextActorNr" = Some (VNum 2)).
  change (P (RoomCreated js h args w)).
  unfold roomOf, indexOf in *.
  unfold RoomCreated. unfold_m. rewrite Hcheck, Hc. cbv beta iota.
  cbv beta iota zeta delta [onGameCreated]. unfold_m.
  destruct (create_validated h args _ _ _ Hc Hcheck) as (_ & _ & Hoptions & _).
  step.
  1: { apply get_inl in E0. congruence. }
  repeat first
    [ rewrite caught_apiError; cbv beta iota; cbn [undefinedOrNull]
    | rewrite apiError_code; cbv beta iota;
      cbn [strict_eq as_string String.eqb Ascii.eqb Bool.eqb]
    | step ].
  all: caught.
  all: subst P; cbv beta; cbn [groups].
  all: cbn [to_string] in *.
  all: try match goal with
       | H : <[?k := _]> _ !! ?k = None |- _ =>
           rewrite lookup_insert_eq in H; discriminate H
       end.
  all: rewrite ?insert_insert_eq in *.
  all: match goal with
       | H : <[_ := _]> _ !! _ = Some _ |- _ =>
           rewrite bool_decide_true
             by (apply lookup_insert_Some in H; destruct H as [[-> _]|[_ H]];
                 [right; done | left; eauto])
       | H : <[_ := _]> _ !! _ = None |- _ =>
           rewrite bool_decide_false
             by (apply lookup_insert_None in H as [H1 H2];
                 intros [[? ?]|?]; congruence)
       end.
  all: try match goal with
       | Hi : _ !! _ = Some ?gl
         |- context [<[?index := merge updateKey {[ ?key := ?cell ]} ?gl]>
                       (<[?room := ?g1]> ?G)] =>
           destruct (stored_entry js (<[room := g1]> G) room index key cell g1 gl)
             as (g' & Hg' & HA & HN);
           [ apply lookup_insert_eq | exact Hi
           | intros Heq; rewrite <- Heq; apply getGamesListId_not_field | ]
       end.
  all: eexists _, _; split; [reflexivity|]; cbn [groups].
  all: split; [first [exact Hg' | apply lookup_insert_eq]|].
  all: rewrite ?HA, ?HN.
  all: split; (erewrite stored_updated; [|reflexivity|done|done]); done.
Qed.

(** X13. A Create that passes validation writes the record of the room, with
    the creator as its only actor, whether or not it succeeds; and it
    succeeds exactly if the caller's list of games exists, or is the shared
    group of the room itself. Otherwise the answer is the failure made of
    the server's error, which has no name and no message. *)
Theorem create_needs_list h args w :
  checkWebhookArgs js h args (getISOTimestamp h) w = (inr (), w) →
  strict_eq js (prop args "Type") (VStr "Create") = true →
  ∃ w' g',
    RoomCreated js h args w
    = (inr (if bool_decide (is_Some (groups w !! indexOf js h)
                            ∨ indexOf js h = roomOf js args)
            then OK else unexpected "undefined: undefined"), w') ∧
    groups w' !! roomOf js args = Some g' ∧
    stored js g' "Actors"
    = Some (json_norm (VObj {[ "1" := VObj {[ "UserId" := prop args "UserId";
                                              "Inactive" := VBool false ]} ]})) ∧
    stored js g' "NextActorNr" = Some (VNum 2).
Proof. apply create_run. Qed.

(** X14. Once [InitGameList] has run for a player, a Create of that player
    that passes validation succeeds, whatever the store was before. *)
Theorem create_after_init h args w :
  checkWebhookArgs js h args (getISOTimestamp h) w = (inr (), w) →
  strict_eq js (prop args "Type") (VStr "Create") = true →
  ∃ w', RoomCreated js h args (InitGameList js h w).2 = (inr OK, w').
Proof.
  intros Hcheck Hc.
  destruct (create_run h args (InitGameList js h w).2) as (w' & _ & Hrun & _);
    [by eapply checkWebhookArgs_anywhere|done|].
  exists w'. rewrite Hrun, bool_decide_true; [done|]. left.
  unfold InitGameList, indexOf. unfold_m. cbn [to_string].
  destruct (groups w !! getGamesListId js (currentPlayerId h)) eqn:Hlist; cbn.
  - cbn. eauto.
  - cbn. by rewrite lookup_insert_eq.
Qed.

End Lists.

(** ** The list of games *)

Section Reading.
Context (js : Engine).

Lemma reads_ret {A} (a : A) : reads (mret a).
Proof. by intros w. Qed.

Lemma reads_bind {A B} (c : M A) (k : A → M B) :
  reads c → (∀ a, reads (k a)) → reads (c ≫= k).
Proof.
  intros Hc Hk w. unfold mbind, M_bind. specialize (Hc w).
  destruct (c w) as [[e|a] w1]; cbn in Hc; destruct Hc as [-> Hc]; [done|].
  apply Hk.
Qed.

Lemma reads_get {B} v k (c : val → M B) :
  (∀ a, reads (c a)) → reads (liftE (get js v k) ≫= c).
Proof.
  intros Hc. apply reads_bind; [|done]. intros w. unfold liftE. cbn.
  split; [done|]. destruct (get js v k) as [e|a] eqn:E; [|done].
  by apply get_throws in E as [m ->].
Qed.

Lemma reads_set {B} v k x (c : val → M B) :
  (∀ a, reads (c a)) → reads (liftE (set js v k x) ≫= c).
Proof.
  intros Hc. apply reads_bind; [|done]. intros w. unfold liftE. cbn.
  split; [done|]. destruct (set js v k x) as [e|a] eqn:E; [|done].
  by apply set_throws in E as [m ->].
Qed.

Lemma reads_getSharedGroupData id keys : reads (getSharedGroupData js id keys).
Proof.
  intros w. unfold getSharedGroupData, server_GetSharedGroupData.
  cbv [mbind M_bind mret M_ret throw].
  destruct (groups w !! to_string js id); [|done].
  by destruct (decide _).
Qed.

Lemma reads_forEach {S} (body : string → S → M S) keys :
  (∀ k s, reads (body k s)) → ∀ s, reads (forEach body keys s).
Proof.
  intros Hbody. induction keys as [|k keys IH]; intros s; cbn.
  - apply reads_ret.
  - apply reads_bind; [apply Hbody|apply IH].
Qed.

Lemma reads_listGame h gameList k s : reads (listGame js h gameList k s).
Proof.
  destruct s as [data listToLoad]. unfold listGame.
  apply reads_get; intros Creation. apply reads_get; intros UserId.
  destruct (strict_eq js UserId (currentPlayerId h)).
  - apply reads_get; intros State. apply reads_get; intros CustomProperties.
    apply reads_ret.
  - apply reads_get; intros ActorNr. apply reads_ret.
Qed.

Lemma reads_loadProperties gameList k data : reads (loadProperties js gameList k data).
Proof.
  unfold loadProperties.
  apply reads_get; intros State. apply reads_get; intros CustomProperties.
  apply reads_set; intros game. apply reads_ret.
Qed.

Lemma reads_loadList order listToLoad k data : reads (loadList js order listToLoad k data).
Proof.
  unfold loadList. apply reads_bind; [apply reads_getSharedGroupData|].
  intros gameList. apply reads_forEach. apply reads_loadProperties.
Qed.

Lemma reads_listGames h order : reads (listGames js h order).
Proof.
  unfold listGames. apply reads_bind; [apply reads_getSharedGroupData|].
  intros gameList. apply reads_bind; [apply reads_forEach, reads_listGame|].
  intros [data listToLoad]. apply reads_bind; [apply reads_forEach, reads_loadList|].
  intros data'. apply reads_ret.
Qed.

Lemma replyCaught_Thrown v w :
  undefinedOrNull v = false →
  ∃ m, replyCaught js (Thrown v) w = (inr (reply (-1) m), w).
Proof.
  intros Hv. unfold replyCaught. unfold_m.
  destruct (get js v "name") as [e|name] eqn:E1; [apply get_inl in E1; congruence|].
  destruct (get js v "message") as [e|message] eqn:E2; [apply get_inl in E2; congruence|].
  eauto.
Qed.

(** What [GetGameList] does when its arguments are all there. *)
Lemma GetGameList_checked h order args w :
  find (λ k, undefinedOrNull (prop args k)) rpcArguments = None →
  GetGameList js h order args w = try_catch (listGames js h order) (replyCaught js) w.
Proof.
  unfold rpcArguments. cbn [find]. intros Hfind.
  unfold GetGameList, checkWebRpcArgs, listGames.
  repeat match type of Hfind with
  | (if ?c then _ else _) = None => destruct c eqn:?; [discriminate Hfind|]
  end.
  unfold try_catch, when. cbv [mbind M_bind mret M_ret]. 
  repeat match goal with H : undefinedOrNull _ = false |- _ => rewrite H; clear H end.
  reflexivity.
Qed.

Lemma bind_inr {A B} (c : M A) (k : A → M B) w b w' :
  (c ≫= k) w = (inr b, w') → ∃ a w1, c w = (inr a, w1) ∧ k a w1 = (inr b, w').
Proof.
  unfold mbind, M_bind. destruct (c w) as [[e|a] w1]; [done|]. eauto.
Qed.

Lemma listGames_listing h order w r w' :
  listGames js h order w = (inr r, w') → ∃ data, r = listing data.
Proof.
  unfold listGames. intros Hrun.
  apply bind_inr in Hrun as (gameList & w1 & _ & Hrun).
  apply bind_inr in Hrun as ([data listToLoad] & w2 & _ & Hrun).
  apply bind_inr in Hrun as (data' & w3 & _ & Hrun).
  injection Hrun as <- _. eauto.
Qed.

Lemma game_list_arguments_run h order args w :
  match find (λ k, undefinedOrNull (prop args k)) rpcArguments with
  | Some name =>
      GetGameList js h order args w
      = (inr (reply 1 ("Missing argument: " ++ name)),
         logs h (missingArgument args name) w) ∧
      logKey h (missingArgument args name) = "NaN"
  | None =>
      ∃ r, GetGameList js h order args w = (inr r, w) ∧
           ((∃ data, r = listing data) ∨ (∃ m, r = reply (-1) m))
  end.
Proof.
  destruct (find _ rpcArguments) as [name|] eqn:Hfind.
  - split; [|done]. revert Hfind. unfold rpcArguments. cbn [find].
    unfold GetGameList, checkWebRpcArgs. unfold_m.
    repeat (destruct (undefinedOrNull _); [by intros [= <-]|]).
    done.
  - rewrite GetGameList_checked by done.
    destruct (reads_listGames h order w) as [Hw Hr]. unfold try_catch.
    destruct (listGames js h order w) as [[[e|v]|r] w1] eqn:Hrun;
      cbn in Hw, Hr; subst w1.
    + done.
    + destruct (replyCaught_Thrown v w Hr) as [m ->]. eauto.
    + apply listGames_listing in Hrun. eauto.
Qed.

(** [GetGameList] always answers, and leaves every shared group as it
    was. *)
Theorem game_list_answers h order args w :
  ∃ r w', GetGameList js h order args w = (inr r, w') ∧ groups w' = groups w.
Proof.
  destruct (find (λ k, undefinedOrNull (prop args k)) rpcArguments) as [name|] eqn:Hfind.
  - revert Hfind. unfold rpcArguments. cbn [find].
    unfold GetGameList, checkWebRpcArgs. unfold_m.
    repeat (destruct (undefinedOrNull _); [intros _; by eexists _, _|]).
    done.
  - rewrite GetGameList_checked by done.
    destruct (reads_listGames h order w) as [Hw Hr]. unfold try_catch.
    destruct (listGames js h order w) as [[[e|v]|r] w1] eqn:Hrun;
      cbn in Hw, Hr; subst w1.
    + done.
    + destruct (replyCaught_Thrown v w Hr) as [m ->]. eauto.
    + eauto.
Qed.

Lemma ownSavedGame_parses h v : is_Some (ownSavedGame js h v) → is_Some (JSON_parse js v).
Proof. unfold ownSavedGame. destruct (JSON_parse js v); [eauto|by intros []]. Qed.

Lemma listGame_own h (idx : gmap string val) k v item data listToLoad w :
  idx !! k = Some v →
  ownSavedGame js h v = Some item →
  listGame js h (omap (JSON_parse js) idx) k (data, listToLoad) w
  = (inr (<[k := item]> data, listToLoad), w).
Proof.
  intros Hk Hown. unfold ownSavedGame in Hown.
  destruct (JSON_parse js v) as [entry|] eqn:Hparse; [|done].
  assert (prop (omap (JSON_parse js) idx) k = entry) as Hentry.
  { unfold prop. by rewrite lookup_omap, Hk; cbn; rewrite Hparse. }
  unfold listGame. rewrite Hentry. unfold_m.
  destruct (get js entry "Creation") as [|Creation]; [done|].
  destruct (get js Creation "UserId") as [|UserId]; [done|].
  destruct (get js entry "State") as [|State]; [done|].
  destruct (get js State "CustomProperties") as [|CustomProperties]; [done|].
  destruct (strict_eq js UserId (currentPlayerId h)); [|done].
  by injection Hown as <-.
Qed.

Lemma forEach_own h (idx : gmap string val) w keys :
  (∀ k, k ∈ keys → ∃ v, idx !! k = Some v ∧ is_Some (ownSavedGame js h v)) →
  ∀ data, ∃ data',
    forEach (listGame js h (omap (JSON_parse js) idx)) keys (data, ∅) w
    = (inr (data', ∅), w) ∧
    ∀ k, data' !! k = if decide (k ∈ keys) then idx !! k ≫= ownSavedGame js h
                      else data !! k.
Proof.
  induction keys as [|k0 keys IH]; intros Hkeys data.
  - exists data. split; [done|]. intros k. by rewrite decide_False by apply not_elem_of_nil.
  - destruct (Hkeys k0) as (v & Hv & [item Hitem]); [apply elem_of_cons; by left|].
    destruct (IH (λ k Hk, Hkeys k (proj2 (elem_of_cons _ _ _) (or_intror Hk)))
                 (<[k0 := item]> data)) as (data' & Hrun & Hdata').
    exists data'. split.
    + cbn [forEach]. unfold mbind, M_bind.
      by rewrite (listGame_own _ _ _ _ _ _ _ _ Hv Hitem).
    + intros k. rewrite Hdata'. destruct (decide (k = k0)) as [->|Hne].
      * rewrite (decide_True (P := k0 ∈ k0 :: keys)) by (apply elem_of_cons; by left).
        destruct (decide (k0 ∈ keys)); [done|].
        by rewrite lookup_insert_eq, Hv; cbn.
      * rewrite lookup_insert_ne by done.
        destruct (decide (k ∈ keys)) as [Hin|Hnin].
        -- by rewrite decide_True by (apply elem_of_cons; by right).
        -- rewrite decide_False; [done|]. rewrite elem_of_cons. intuition.
Qed.

Lemma ownKeys_empty {A} order : ownKeys order (∅ : gmap string A) = [].
Proof.
  unfold ownKeys. rewrite map_to_list_empty. cbn.
  apply Permutation_nil_r. apply forIn_keys.
Qed.

Lemma elem_of_ownKeys {A} order (o : gmap string A) k :
  k ∈ ownKeys order o ↔ is_Some (o !! k).
Proof.
  unfold ownKeys. rewrite (forIn_keys order). rewrite list_elem_of_fmap. split.
  - intros [[k' v] [-> Hin]]. apply elem_of_map_to_list in Hin. eauto.
  - intros [v Hv]. exists (k, v). split; [done|]. by apply elem_of_map_to_list.
Qed.

Lemma saved_games_run h order args w idx :
  find (λ k, undefinedOrNull (prop args k)) rpcArguments = None →
  groups w !! indexOf js h = Some idx →
  map_Forall (λ _ v, is_Some (ownSavedGame js h v)) idx →
  GetGameList js h order args w
  = (inr (listing (omap (ownSavedGame js h) idx)), w).
Proof.
  intros Hargs Hidx Hown. rewrite GetGameList_checked by done.
  unfold try_catch, listGames. unfold mbind at 1. unfold M_bind at 1.
  rewrite getSharedGroupData_all. cbn [to_string]. unfold indexOf in Hidx. rewrite Hidx.
  rewrite decide_True
    by (intros k v Hk; eapply ownSavedGame_parses, Hown, Hk).
  destruct (forEach_own h idx w (ownKeys order (omap (JSON_parse js) idx))) with (data := (∅ : gmap string val))
    as (data' & Hrun & Hdata').
  { intros k [e He]%elem_of_ownKeys. rewrite lookup_omap in He.
    destruct (idx !! k) as [v|] eqn:Hk; [|done]. eauto. }
  unfold mbind at 1. unfold M_bind at 1. rewrite Hrun.
  rewrite ownKeys_empty. cbn. do 3 f_equal.
  apply map_eq. intros k. rewrite Hdata', lookup_omap.
  destruct (decide _) as [|Hnin]; [done|].
  rewrite elem_of_ownKeys, lookup_omap in Hnin.
  destruct (idx !! k) as [v|] eqn:Hk; [|done].
  exfalso. apply Hnin. cbn. eapply ownSavedGame_parses, Hown, Hk.
Qed.

(** X23. If the caller's list of games holds nothing but games that the
    caller created and that have a state, [GetGameList] answers with the
    listing that gives, for each of them, actor number 1 and the custom
    properties of its state, in whatever order the engine visits the
    games. *)
Theorem game_list_of_saved_games h order args w idx :
  find (λ k, undefinedOrNull (prop args k)) rpcArguments = None →
  groups w !! indexOf js h = Some idx →
  map_Forall (λ _ v, is_Some (ownSavedGame js h v)) idx →
  GetGameList js h order args w
  = (inr (listing (omap (ownSavedGame js h) idx)), w).
Proof. apply saved_games_run. Qed.

Lemma listGame_keeps h gameList k data listToLoad w data' listToLoad' w' user :
  listGame js h gameList k (data, listToLoad) w = (inr (data', listToLoad'), w') →
  is_Some (listToLoad !! user) → is_Some (listToLoad' !! user).
Proof.
  unfold listGame. unfold_m. intros Hrun Huser.
  destruct (get js (prop gameList k) "Creation") as [|Creation]; [done|].
  destruct (get js Creation "UserId") as [|UserId]; [done|].
  destruct (strict_eq js UserId (currentPlayerId h)).
  - destruct (get js (prop gameList k) "State") as [|State]; [done|].
    destruct (get js State "CustomProperties") as [|CustomProperties]; [done|].
    by injection Hrun as _ <- _.
  - destruct (get js (prop gameList k) "ActorNr") as [|ActorNr]; [done|].
    injection Hrun as _ <- _.
    destruct (decide (user = to_string js UserId)) as [->|Hne].
    + by rewrite lookup_insert_eq.
    + rewrite lookup_insert_ne by done. case_bool_decide; [done|].
      by rewrite lookup_insert_ne.
Qed.

Lemma listGame_foreign h (idx : gmap string val) k v creator data listToLoad w
    data' listToLoad' w' :
  idx !! k = Some v →
  creatorOf js v = Some creator →
  strict_eq js creator (currentPlayerId h) = false →
  listGame js h (omap (JSON_parse js) idx) k (data, listToLoad) w
  = (inr (data', listToLoad'), w') →
  is_Some (listToLoad' !! to_string js creator).
Proof.
  intros Hk Hcreator Hforeign. unfold creatorOf in Hcreator.
  destruct (JSON_parse js v) as [entry|] eqn:Hparse; [|done].
  assert (prop (omap (JSON_parse js) idx) k = entry) as Hentry.
  { unfold prop. by rewrite lookup_omap, Hk; cbn; rewrite Hparse. }
  unfold listGame. rewrite Hentry. unfold_m.
  destruct (get js entry "Creation") as [|Creation]; [done|].
  destruct (get js Creation "UserId") as [|UserId]; [done|].
  injection Hcreator as ->. rewrite Hforeign.
  destruct (get js entry "ActorNr") as [|ActorNr]; [done|].
  intros [= _ <- _]. by rewrite lookup_insert_eq.
Qed.

Lemma forEach_foreign h (idx : gmap string val) k0 v creator :
  idx !! k0 = Some v →
  creatorOf js v = Some creator →
  strict_eq js creator (currentPlayerId h) = false →
  ∀ keys data listToLoad w data' listToLoad' w',
    k0 ∈ keys ∨ is_Some (listToLoad !! to_string js creator) →
    forEach (listGame js h (omap (JSON_parse js) idx)) keys (data, listToLoad) w
    = (inr (data', listToLoad'), w') →
    is_Some (listToLoad' !! to_string js creator).
Proof.
  intros Hk Hcreator Hforeign.
  induction keys as [|k keys IH]; intros data listToLoad w data' listToLoad' w' Hin Hrun.
  - destruct Hin as [Hin|Hin]; [by apply elem_of_nil in Hin|].
    by injection Hrun as _ <- _.
  - cbn [forEach] in Hrun. apply bind_inr in Hrun as ([d1 l1] & w1 & Hstep & Hrun).
    eapply IH; [|exact Hrun].
    destruct Hin as [[->|Hin]%elem_of_cons|Hin].
    + right. eapply listGame_foreign; eauto.
    + by left.
    + right. eapply listGame_keeps; eauto.
Qed.

Lemma loadList_missing order listToLoad user data w :
  groups w !! getGamesListId js (VStr user) = None →
  ∃ e, loadList js order listToLoad user data w = (inl e, w).
Proof.
  intros Hnone. unfold loadList, getSharedGroupData, server_GetSharedGroupData.
  cbv [mbind M_bind mret M_ret throw]. cbn [to_string]. rewrite Hnone. eauto.
Qed.

Lemma forEach_missing order listToLoad user w :
  groups w !! getGamesListId js (VStr user) = None →
  ∀ keys data r w',
    user ∈ keys →
    forEach (loadList js order listToLoad) keys data w ≠ (inr r, w').
Proof.
  intros Hnone. induction keys as [|k keys IH]; intros data r w' Hin Hrun.
  - by apply elem_of_nil in Hin.
  - cbn [forEach] in Hrun. apply bind_inr in Hrun as (d1 & w1 & Hstep & Hrun).
    destruct (reads_loadList order listToLoad k data w) as [Hw _].
    rewrite Hstep in Hw. cbn in Hw. subst w1.
    apply elem_of_cons in Hin as [<-|Hin].
    + destruct (loadList_missing order listToLoad user data w Hnone) as [e He].
      rewrite He in Hstep. discriminate Hstep.
    + eapply IH; eauto.
Qed.

Lemma game_list_fails_run h order args w idx k v creator :
  groups w !! indexOf js h = Some idx →
  idx !! k = Some v →
  creatorOf js v = Some creator →
  strict_eq js creator (currentPlayerId h) = false →
  groups w !! getGamesListId js creator = None →
  ∃ code m w',
    GetGameList js h order args w = (inr (reply code m), w') ∧
    (code = 1 ∨ code = -1)%Z.
Proof.
  intros Hidx Hk Hcreator Hforeign Hnone.
  pose proof (game_list_arguments_run h order args w) as Hrun.
  destruct (find _ rpcArguments) as [name|] eqn:Hfind;
    [destruct Hrun as [-> _]; eauto 10|].
  destruct Hrun as (r & Hrun & [[data ->]|[m ->]]); [|eauto 10].
  exfalso. rewrite GetGameList_checked in Hrun by done.
  unfold try_catch in Hrun.
  destruct (listGames js h order w) as [[e|r] w1] eqn:Hlist.
  { destruct e as [p|x]; [done|]. cbn in Hrun.
    destruct (get js x "name"); [done|]. by destruct (get js x "message"). }
  clear Hrun. unfold listGames in Hlist.
  apply bind_inr in Hlist as (gameList & w2 & Hget & Hlist).
  rewrite getSharedGroupData_all in Hget. cbn [to_string] in Hget.
  unfold indexOf in Hidx. rewrite Hidx in Hget.
  destruct (decide _); [|done]. injection Hget as <- <-.
  apply bind_inr in Hlist as ([data' listToLoad] & w3 & Hfirst & Hlist).
  destruct (reads_forEach (listGame js h (omap (JSON_parse js) idx))
              (ownKeys order (omap (JSON_parse js) idx))
              (reads_listGame h _) (∅, ∅) w) as [Hw _].
  rewrite Hfirst in Hw. cbn in Hw. subst w3.
  apply forEach_foreign with (k0 := k) (v := v) (creator := creator) in Hfirst;
    [|done..|].
  2: { left. apply elem_of_ownKeys. rewrite lookup_omap, Hk. cbn.
       unfold creatorOf in Hcreator. by destruct (JSON_parse js v). }
  apply bind_inr in Hlist as (data'' & w4 & Hsecond & _).
  eapply (forEach_missing order listToLoad (to_string js creator) w Hnone);
    [|exact Hsecond].
  by apply elem_of_ownKeys.
Qed.

(** X24. If the caller's list of games holds a game whose entry names another
    creator than the caller, and that creator has no list of games, then
    [GetGameList] fails: its result code is 1 or -1. An entry whose
    [Creation] has no [UserId] names [undefined]. *)
Theorem game_list_needs_creator_list h order args w idx k v creator :
  groups w !! indexOf js h = Some idx →
  idx !! k = Some v →
  creatorOf js v = Some creator →
  strict_eq js creator (currentPlayerId h) = false →
  groups w !! getGamesListId js creator = None →
  ∃ code m w',
    GetGameList js h order args w = (inr (reply code m), w') ∧
    (code = 1 ∨ code = -1)%Z.
Proof. apply game_list_fails_run. Qed.

(** X22. [GetGameList] checks its arguments in the order AppId, AppVersion,
    Region, UserId. If one is missing it answers with result code 1 and
    the name of the first that is, reads nothing, and logs the failure
    under the key [NaN], having no timestamp to offer. If none is missing
    it changes nothing at all, and answers with a listing or with result
    code -1. *)
Theorem game_list_arguments h order args w :
  match find (λ k, undefinedOrNull (prop args k)) rpcArguments with
  | Some name =>
      GetGameList js h order args w
      = (inr (reply 1 ("Missing argument: " ++ name)),
         logs h (missingArgument args name) w) ∧
      logKey h (missingArgument args name) = "NaN"
  | None =>
      ∃ r, GetGameList js h order args w = (inr r, w) ∧
           ((∃ data, r = listing data) ∨ (∃ m, r = reply (-1) m))
  end.
Proof. apply game_list_arguments_run. Qed.

Lemma creatorOf_encoded (data : gmap string val) c :
  data !! "Creation" = Some (VObj c) →
  creatorOf js (encodeField (VObj (encodeField <$> data))) = Some VUndef.
Proof.
  intros Hc. unfold creatorOf. cbn. unfold prop.
  rewrite lookup_omap, lookup_fmap, Hc. reflexivity.
Qed.

(** The entry [onGameCreated] leaves in the caller's list of games names no
    creator: the fields of the record were turned into JSON texts before the
    record was. *)
Lemma created_entry h args w r w' :
  strict_eq js (prop args "Type") (VStr "Create") = true →
  RoomCreated js h args w = (inr r, w') →
  ResultCode r = 0%Z →
  ∃ idx v,
    groups w' !! indexOf js h = Some idx ∧
    idx !! roomOf js args = Some v ∧
    creatorOf js v = Some VUndef.
Proof.
  intros Hc. revert r w'.
  pose proof (checkWebhookArgs_outcome js h args (getISOTimestamp h) w) as Hv.
  pose (P := λ res : (thrown + Response) * World,
    ∀ r w', res = (inr r, w') → ResultCode r = 0%Z →
    ∃ idx v,
      groups w' !! indexOf js h = Some idx ∧
      idx !! roomOf js args = Some v ∧
      creatorOf js v = Some VUndef).
  change (P (RoomCreated js h args w)).
  unfold roomOf, indexOf in *.
  unfold RoomCreated. unfold_m. step.
  { by intros r w' [=]. }
  destruct (checkWebhookArgs js h args (getISOTimestamp h) w) as [[[e|v']|[]] w1] eqn:Hcheck;
    cbn in Hv.
  - destruct Hv as (-> & Hcode & _). caught. intros r w' [= <- <-] Hr. cbn in Hr.
    rewrite Hr, !elem_of_cons, elem_of_nil in Hcode. lia.
  - done.
  - destruct Hv as [-> _]. rewrite Hc. cbv beta iota.
    cbv beta iota zeta delta [onGameCreated]. unfold_m.
    exec.
    all: caught.
    all: try (intros r w' [= <- <-] Hr; discriminate Hr).
    all: intros r w' [= <- <-] _; cbn [groups].
    all: cbn [to_string].
    all: rewrite lookup_insert_eq.
    all: eexists _, _; split; [reflexivity|].
    all: rewrite lookup_updated_entry.
    all: split; [reflexivity|].
    all: eapply creatorOf_encoded; reflexivity.
Qed.

(** X25. After a Create has succeeded, [GetGameList] fails for the player who
    created the room, unless there is a shared group called
    "undefined_GamesList": the entry that the Create left in the player's
    list of games names no creator. *)
Theorem created_game_not_listed h order args rpc w r w' :
  strict_eq js (prop args "Type") (VStr "Create") = true →
  RoomCreated js h args w = (inr r, w') →
  ResultCode r = 0%Z →
  groups w' !! "undefined_GamesList" = None →
  ∃ code m w'',
    GetGameList js h order rpc w' = (inr (reply code m), w'') ∧
    (code = 1 ∨ code = -1)%Z.
Proof.
  intros Hc Hrun Hr Hnone.
  destruct (created_entry h args w r w' Hc Hrun Hr) as (idx & v & Hidx & Hv & Hcreator).
  eapply game_list_fails_run; [exact Hidx|exact Hv|exact Hcreator| |exact Hnone].
  destruct (created_outcome js h args w r w' Hrun)
    as [(_ & Hcheck & _)|[[Hr' _]|[Hr' _]]];
    [|rewrite Hr in Hr'; discriminate Hr'
     |rewrite Hr, !elem_of_cons, elem_of_nil in Hr'; lia].
  destruct (create_validated js h args _ _ _ Hc Hcheck)
    as (_ & (_ & Hdefined & Hcaller & _) & _).
  destruct (currentPlayerId h); try done.
  by destruct (prop args "UserId").
Qed.

End Reading.

(** ** The cooldown of player moves *)

Section Cooldown.
Context (js : Engine) (dates : Dates) (h : Host).

Lemma last_named (l : list (string * Z)) : ∀ acc,
  NoDup l.*1 →
  foldl (λ movesMade stat, if String.eqb stat.1 "" then stat.2 else movesMade) acc l
  = default acc ((list_to_map l : gmap string Z) !! "").
Proof.
  induction l as [|[k v] l IH]; intros acc Hnd; [done|].
  apply NoDup_cons in Hnd as [Hk Hnd]. cbn [foldl fst snd list_to_map foldr].
  rewrite IH by done. destruct (String.eqb_spec k "") as [->|Hne].
  - rewrite lookup_insert_eq. cbn.
    by rewrite (not_elem_of_list_to_map_1 (M := gmap string)).
  - by rewrite lookup_insert_ne.
Qed.

Lemma movesMade_read (stats : gmap string Z) :
  foldl (λ movesMade stat, if String.eqb stat.1 "" then stat.2 else movesMade)
    0%Z (map_to_list stats)
  = default 0%Z (stats !! "").
Proof.
  rewrite last_named by apply NoDup_fst_map_to_list.
  by rewrite list_to_map_to_list.
Qed.

Lemma internalData_read (p : Players) id k :
  server_GetUserInternalData id [k] p !! k = internalDataOf p id !! k.
Proof.
  unfold server_GetUserInternalData.
  destruct (internalDataOf p id !! k) as [x|] eqn:Hk.
  - apply map_lookup_filter_Some. split; [done|]. cbn. by apply list_elem_of_singleton.
  - apply map_lookup_filter_None. by left.
Qed.

Lemma tooEarly_decided now p :
  match server_GetUserInternalData (to_string js (currentPlayerId h))
          ["last_move_timestamp"] p !! "last_move_timestamp" with
  | Some Value =>
      match Date_parse dates (to_string js Value) with
      | Some lastMoveTime => (now - lastMoveTime <? playerMoveCooldownInSeconds * 1000)%Z
      | None => false
      end
  | None => false
  end = true ↔ tooEarly js dates h now p.
Proof.
  unfold tooEarly, playerMoveCooldownInSeconds. rewrite internalData_read. split.
  - destruct (_ !! "last_move_timestamp") as [Value|]; [|done].
    destruct (Date_parse dates _) as [last|] eqn:Hparse; [|done].
    intros Hlt%Z.ltb_lt. exists Value, last. split; [done|]. split; [done|lia].
  - intros (Value & last & -> & -> & Hlt). apply Z.ltb_lt. lia.
Qed.

(** X27. A move is refused exactly when the player's last move timestamp
    parses to a time less than 15000 milliseconds before now; a timestamp
    that does not parse refuses nothing. A refused move writes nothing. *)
Theorem move_refused now move p valid p' :
  processPlayerMove js dates h now move p = (valid, p') →
  (valid = false ↔ tooEarly js dates h now p) ∧
  (valid = false → p' = p).
Proof.
  unfold processPlayerMove. cbv zeta.
  pose proof (tooEarly_decided now p) as Hdec.
  destruct (match _ !! "last_move_timestamp" with Some _ => _ | None => _ end).
  - intros [= <- <-]. split; [|done]. split; [intros _; by apply Hdec|done].
  - intros [= <- _]. split; [|done]. split; [done|]. intros Hearly%Hdec. done.
Qed.

(** X28. An accepted move sets the statistic "movesMade" to one more than the
    value of the statistic with the empty name, or to 1 if the player has no
    such statistic: it does not count up from the previous "movesMade". The
    other statistics of the player, and all those of other players, stay as
    they are; the player's last move timestamp becomes the time of the
    move. *)
Theorem move_accepted now move p p' :
  processPlayerMove js dates h now move p = (true, p') →
  let id := to_string js (currentPlayerId h) in
  statistics p'
  = <[id := <["movesMade" := (default 0 (statisticsOf p id !! "") + 1)%Z]>
              (statisticsOf p id)]> (statistics p) ∧
  internalDataOf p' id !! "last_move_timestamp"
  = Some (VStr (Date_toUTCString dates now)) ∧
  ∀ id', id' ≠ id → internalData p' !! id' = internalData p !! id'.
Proof.
  unfold processPlayerMove. cbv zeta.
  destruct (match _ !! "last_move_timestamp" with Some _ => _ | None => _ end);
    [done|].
  intros [= <-]. unfold server_UpdatePlayerStatistics, server_UpdateUserInternalData,
    server_GetPlayerStatistics.
  cbn [statistics internalData foldl fst snd].
  rewrite movesMade_read. split; [done|]. split.
  - unfold internalDataOf at 1. cbn [internalData]. rewrite lookup_insert_eq. cbn.
    rewrite lookup_merge, lookup_insert_eq.
    by destruct (_ !! "last_move_timestamp").
  - intros id' Hne. by rewrite lookup_insert_ne.
Qed.

(** X29. Once a move has been accepted, a later move of the same player that
    comes less than 15000 milliseconds after the time that the UTC string of
    the first move parses to is refused: [updatePlayerMove] answers that the
    move is not valid, and neither it nor [RoomEventRaised], whatever the
    event, writes anything. *)
Theorem next_move_too_early now1 move1 p p1 now2 move2 t :
  processPlayerMove js dates h now1 move1 p = (true, p1) →
  Date_parse dates (Date_toUTCString dates now1) = Some t →
  (now2 - t < 15000)%Z →
  updatePlayerMove js dates h now2 move2 p1 = (false, p1) ∧
  ∀ args, (RoomEventRaised js dates h now2 args p1).2 = p1.
Proof.
  intros Hfirst Hparse Hlt.
  assert (internalDataOf p1 (to_string js (currentPlayerId h))
            !! "last_move_timestamp" = Some (VStr (Date_toUTCString dates now1))) as Hstamp.
  { revert Hfirst. unfold processPlayerMove. cbv zeta.
    destruct (match _ !! "last_move_timestamp" with Some _ => _ | None => _ end);
      [done|].
    intros [= <-]. unfold server_UpdateUserInternalData.
    unfold internalDataOf at 1. cbn [internalData]. rewrite lookup_insert_eq. cbn.
    rewrite lookup_merge, lookup_insert_eq.
    by destruct (_ !! "last_move_timestamp"). }
  assert (∀ move, processPlayerMove js dates h now2 move p1 = (false, p1)) as Hrefused.
  { intros move. unfold processPlayerMove. cbv zeta.
    rewrite internalData_read, Hstamp. cbn [to_string].
    rewrite Hparse. unfold playerMoveCooldownInSeconds.
    by rewrite (proj2 (Z.ltb_lt _ _)) by lia. }
  split; [apply Hrefused|].
  intros args. unfold RoomEventRaised.
  destruct (get js (prop args "Data") "eventType") as [e|eventType]; [done|].
  destruct (strict_eq js eventType (VStr "playerMove")); [|done].
  by rewrite Hrefused.
Qed.

End Cooldown.

(** ** Validation and the handlers as a family *)

Section Family.
Context (js : Engine).

(** X5. An event passes validation only if its type, as a string, is one of
    Load, Create, Join, Player, Game, Event, Save and Close, or the name of a
    leave reason; the deprecated type Leave is none of them. Passing writes
    nothing. *)
Theorem validation_knows_the_type h args ts w w' :
  checkWebhookArgs js h args ts w = (inr (), w') →
  w' = w ∧
  to_string js (prop args "Type") ≠ "Leave" ∧
  (to_string js (prop args "Type") ∈ eventTypes
   ∨ is_Some (LeaveReason !! to_string js (prop args "Type"))).
Proof.
  intros Hrun. pose proof (checkWebhookArgs_outcome js h args ts w) as Hv.
  rewrite Hrun in Hv. unfold validationOutcome in Hv. cbn in Hv.
  destruct Hv as [-> Hty]. split; [done|]. split; [|done].
  intros Hleave. rewrite Hleave in Hty. destruct Hty as [Hin|[x Hx]].
  - unfold eventTypes in Hin. rewrite !elem_of_cons, elem_of_nil in Hin.
    intuition discriminate.
  - vm_compute in Hx. discriminate Hx.
Qed.

(** X6. Validation fails with nothing but a [PhotonException] of code 1, 2
    or 3, and has then written exactly one entry to the title data: the
    message and the data of the exception, under the timestamp followed by
    a random number, or under [NaN] for the one exception made without a
    timestamp. The shared groups are as before. *)
Theorem validation_failure_logged h args ts w e w' :
  checkWebhookArgs js h args ts w = (inl e, w') →
  ∃ p,
    e = Photon p ∧
    PhotonException.ResultCode p ∈ [1; 2; 3]%Z ∧
    groups w' = groups w ∧
    titleData w'
    = <[logKey h p := logEntry (PhotonException.Message p) (PhotonException.Data p)]>
        (titleData w) ∧
    (logKey h p = (ts ++ random h)%string ∨ logKey h p = "NaN").
Proof.
  intros Hrun. pose proof (checkWebhookArgs_outcome js h args ts w) as Hv.
  rewrite Hrun in Hv. unfold validationOutcome in Hv. cbn in Hv.
  destruct e as [p|v]; [|done].
  destruct Hv as (-> & Hcode & Hts). exists p. split; [done|]. split; [done|].
  split; [done|]. split; [done|]. unfold logKey. by destruct Hts as [-> | ->]; [left|right].
Qed.

(** X9. A room handler answers with result code 0 only for an event that
    passes validation and whose type is one of the handler's own: Create or
    Load for [RoomCreated], Join for [RoomJoined], the name of a leave reason
    for [RoomLeft], Close or Save for [RoomClosed]. *)
Theorem success_is_validated h k args w r w' :
  handler js h k args w = (inr r, w') →
  ResultCode r = 0%Z →
  checkWebhookArgs js h args (getISOTimestamp h) w = (inr (), w) ∧
  accepts js k (prop args "Type").
Proof.
  intros Hrun Hr.
  destruct (handler_outcome js h k args w r w' Hrun)
    as [(_ & Hcheck & Hty & _)|[[Hr' _]|[Hr' _]]]; [done| |].
  - rewrite Hr in Hr'. discriminate Hr'.
  - rewrite Hr, !elem_of_cons, elem_of_nil in Hr'. lia.
Qed.

(** X10. A room handler writes to the title data exactly when it answers with
    the code of a [PhotonException], which is 1, 2, 3, 5 or 6: it has then
    written one entry, which holds the message of its answer. With result
    code 0 or -1 the title data are as before. *)
Theorem typed_failures_logged h k args w r w' :
  handler js h k args w = (inr r, w') →
  (ResultCode r ∈ [0; -1]%Z ∧ titleData w' = titleData w)
  ∨ (ResultCode r ∈ [1; 2; 3; 5; 6]%Z ∧ logged w w' r).
Proof.
  intros Hrun.
  destruct (handler_outcome js h k args w r w' Hrun)
    as [(Hr & _ & _ & Hlog)|[(Hr & Hlog & _)|(Hr & Hlog & _)]].
  - left. rewrite Hr, !elem_of_cons. auto.
  - left. rewrite Hr, !elem_of_cons. auto.
  - by right.
Qed.



(** X7. A Create passes validation exactly if it has an application id, an
    application version, a region, a game id, a user id that is the
    caller's, a user name or a nickname, create options, and the number 1
    as its actor number. *)
Theorem create_validation h args ts w :
  strict_eq js (prop args "Type") (VStr "Create") = true →
  checkWebhookArgs js h args ts w = (inr (), w) ↔
  envelope args ∧ actor js h args ∧
  undefinedOrNull (prop args "CreateOptions") = false ∧
  prop args "ActorNr" = VNum 1.
Proof.
  intros Hc. split; [by apply create_validated|].
  intros ((HAppId & HAppVersion & HRegion & HGameId & HType)
          & (HActorNr & HUserId & Hcaller & Hname) & Hoptions & Hone).
  apply strict_eq_VStr in Hc.
  unfold checkWebhookArgs. unfold_m. unfold strict_ne.
  rewrite !(strict_eq_as_string _ _ _ _ Hc).
  rewrite HAppId, HAppVersion, HRegion, HGameId, HType, HActorNr, HUserId, Hcaller,
    Hname, Hoptions, Hone.
  reflexivity.
Qed.

End Family.

(** ** Saving, listing, and the events a game raises *)

Section Saved.
Context (js : Engine).

Lemma strict_eq_to_string a b :
  strict_eq js a b = true → to_string js a = to_string js b.
Proof.
  destruct a as [| |[]| | | | | |], b as [| |[]| | | | | |]; simpl; try discriminate;
    rewrite ?Z.eqb_eq, ?String.eqb_eq; congruence.
Qed.

Lemma strict_eq_json_norm a b :
  strict_eq js a b = true → json_norm a = a.
Proof. by destruct a, b. Qed.

(** The object [GetGameList] makes for the entry that a Save puts into the
    list of the room's creator. *)
Lemma ownSavedGame_saved h (entry creation state : gmap string val) user :
  entry !! "Creation" = Some (VObj creation) →
  creation !! "UserId" = Some user →
  strict_eq js user (currentPlayerId h) = true →
  entry !! "State" = Some (VObj state) →
  ownSavedGame js h (JSON_stringify (VObj entry))
  = Some (VObj {[ "ActorNr" := VNum 1;
                  "Properties" := json_norm (prop state "CustomProperties") ]}).
Proof.
  intros Hcreation Huser Hcaller Hstate. unfold ownSavedGame. cbn. unfold prop.
  rewrite !lookup_omap, Hcreation, Hstate. cbn. unfold prop.
  rewrite !lookup_omap, Huser. cbn.
  assert (default VUndef (match user with
                          | VUndef => None
                          | _ => Some (json_norm user)
                          end) = user) as ->.
  { rewrite (strict_eq_json_norm _ _ Hcaller). by destruct user. }
  rewrite Hcaller. do 3 f_equal.
  destruct (state !! "CustomProperties") as [x|]; [|done]. by destruct x.
Qed.

(** X26. After a Save has succeeded for a room whose record names the caller
    as creator, with a state that is an object, [GetGameList] lists the room
    for the caller, with actor number 1 and the custom properties of the
    saved state, provided the other games of the caller's list are saved
    games of the caller as well. *)
Theorem saved_game_listed h closing order args rpc w r w' g idx creation user state :
  strict_eq js (prop args "Type") (VStr "Save") = true →
  RoomClosed js closing args w = (inr r, w') →
  ResultCode r = 0%Z →
  groups w !! roomOf js args = Some g →
  stored js g "Creation" = Some (VObj creation) →
  creation !! "UserId" = Some user →
  strict_eq js user (currentPlayerId h) = true →
  prop args "State" = VObj state →
  groups w !! indexOf js h = Some idx →
  roomOf js args ≠ indexOf js h →
  map_Forall (λ k v, k = roomOf js args ∨ is_Some (ownSavedGame js h v)) idx →
  find (λ k, undefinedOrNull (prop rpc k)) rpcArguments = None →
  ∃ data,
    GetGameList js h order rpc w' = (inr (listing data), w') ∧
    data !! roomOf js args
    = Some (VObj {[ "ActorNr" := VNum 1;
                    "Properties" := json_norm (prop state "CustomProperties") ]}).
Proof.
  intros Hs Hrun Hr Hg Hcreation Huser Hcaller Hstate Hidx Hne Hothers Hrpc.
  destruct (save_run js closing args w r w' g Hs Hrun Hr Hg)
    as (list & idx' & entry & Hlist & Hidx' & Hgroups & HState & Hframe & _).
  assert (list = indexOf js h) as ->.
  { revert Hlist. unfold creatorList, indexOf, getGamesListId. rewrite Hcreation. cbn.
    unfold prop. rewrite Huser. cbn. intros [= <-].
    by rewrite (strict_eq_to_string _ _ Hcaller). }
  rewrite Hidx in Hidx'. injection Hidx' as <-.
  assert (groups w' !! indexOf js h
          = Some (<[roomOf js args := JSON_stringify (VObj entry)]> idx)) as Hidx'.
  { rewrite Hgroups, lookup_delete_ne, lookup_insert_eq by done. done. }
  assert (ownSavedGame js h (JSON_stringify (VObj entry))
          = Some (VObj {[ "ActorNr" := VNum 1;
                          "Properties" := json_norm (prop state "CustomProperties") ]}))
    as Hown.
  { eapply ownSavedGame_saved; [|exact Huser|exact Hcaller|by rewrite HState, Hstate].
    by rewrite Hframe. }
  eexists. split.
  - apply saved_games_run; [done|exact Hidx'|].
    intros k v. destruct (decide (k = roomOf js args)) as [->|Hk].
    + rewrite lookup_insert_eq. intros [= <-]. by rewrite Hown.
    + rewrite lookup_insert_ne by done. intros Hv.
      by destruct (Hothers k v Hv).
  - by rewrite lookup_omap, lookup_insert_eq.
Qed.

End Saved.

Section Raised.
Context (js : Engine) (dates : Dates) (h : Host).

(** X30. [RoomEventRaised] throws, with nothing to catch it, exactly for an
    event that has no data. It changes the players' data only for an event
    whose data have the event type "playerMove", and only if the move does
    not come too early. *)
Theorem event_raised now args p :
  ((∃ e, (RoomEventRaised js dates h now args p).1 = inl e)
   ↔ undefinedOrNull (prop args "Data") = true) ∧
  ((RoomEventRaised js dates h now args p).2 ≠ p →
   ∃ eventType,
     get js (prop args "Data") "eventType" = inr eventType ∧
     strict_eq js eventType (VStr "playerMove") = true ∧
     ¬ tooEarly js dates h now p).
Proof.
  unfold RoomEventRaised.
  destruct (get js (prop args "Data") "eventType") as [e|eventType] eqn:E.
  - split; [|done]. split; [intros _; by apply get_inl in E|eauto].
  - assert (undefinedOrNull (prop args "Data") = false) as Hdata
      by (by destruct (prop args "Data")).
    destruct (strict_eq js eventType (VStr "playerMove")) eqn:Hty.
    + split; [split; [by intros [e [=]]|congruence]|].
      intros Hchanged. exists eventType. split; [done|]. split; [done|].
      intros Hearly. apply Hchanged.
      apply (tooEarly_decided js dates h) in Hearly.
      unfold processPlayerMove. cbv zeta.
      by rewrite Hearly.
    + split; [split; [by intros [e [=]]|congruence]|]. done.
Qed.

End Raised.

(** ** The properties at work *)

(** The Create of G1 by U1. *)
Lemma validation_knows_the_type_witness :
  store0 = store0 ∧
  to_string engine0 (prop (createEvent 2 0) "Type") ≠ "Leave" ∧
  (to_string engine0 (prop (createEvent 2 0) "Type") ∈ eventTypes
   ∨ is_Some (LeaveReason !! to_string engine0 (prop (createEvent 2 0) "Type"))).
Proof.
  apply (validation_knows_the_type engine0 (host (VStr "U1") "t1") (createEvent 2 0)
           "t1" store0 store0).
  vm_compute; reflexivity.
Defined.

(** A Close with actor count 1. *)
Lemma validation_failure_logged_witness :
  ∃ p,
    Photon closeRejected = Photon p ∧
    PhotonException.ResultCode p ∈ [1; 2; 3]%Z ∧
    groups (logs (host VUndef "t3") closeRejected store0) = groups store0 ∧
    titleData (logs (host VUndef "t3") closeRejected store0)
    = <[logKey (host VUndef "t3") p
        := logEntry (PhotonException.Message p) (PhotonException.Data p)]>
        (titleData store0) ∧
    (logKey (host VUndef "t3") p = ("t3" ++ random (host VUndef "t3"))%string
     ∨ logKey (host VUndef "t3") p = "NaN").
Proof.
  apply (validation_failure_logged engine0 (host VUndef "t3") (closeEvent 1) "t3" store0).
  vm_compute; reflexivity.
Defined.

Lemma create_validation_witness :
  checkWebhookArgs engine0 (host (VStr "U1") "t1") (createEvent 2 0) "t1" store0
  = (inr (), store0) ↔
  envelope (createEvent 2 0) ∧ actor engine0 (host (VStr "U1") "t1") (createEvent 2 0) ∧
  undefinedOrNull (prop (createEvent 2 0) "CreateOptions") = false ∧
  prop (createEvent 2 0) "ActorNr" = VNum 1.
Proof.
  apply (create_validation engine0 (host (VStr "U1") "t1") (createEvent 2 0) "t1" store0).
  vm_compute; reflexivity.
Defined.

Lemma success_is_validated_witness :
  checkWebhookArgs engine0 (host (VStr "U1") "t1") (createEvent 2 0) "t1" store0
  = (inr (), store0) ∧
  accepts engine0 Created (prop (createEvent 2 0) "Type").
Proof.
  apply (success_is_validated engine0 (host (VStr "U1") "t1") Created (createEvent 2 0)
           store0 OK (created engine0 2 0)).
  - vm_compute; reflexivity.
  - reflexivity.
Defined.

(** Closing G1 with actor count 1 while it holds two actors. *)
Lemma typed_failures_logged_witness :
  (ResultCode closeWithActors ∈ [0; -1]%Z ∧
   titleData (logs (host VUndef "t3") closeRejected (full engine0))
   = titleData (full engine0))
  ∨ (ResultCode closeWithActors ∈ [1; 2; 3; 5; 6]%Z ∧
     logged (full engine0) (logs (host VUndef "t3") closeRejected (full engine0))
       closeWithActors).
Proof.
  apply (typed_failures_logged engine0 (host VUndef "t3") Closed (closeEvent 1)
           (full engine0)).
  vm_compute; reflexivity.
Defined.


(** U1 creating G1 before and after initialising the list of games. *)
Lemma create_needs_list_witness :
  ∃ w' g',
    RoomCreated engine0 (host (VStr "U1") "t1") (createEvent 2 0)
      {| groups := ∅; titleData := ∅ |}
    = (inr (unexpected "undefined: undefined"), w') ∧
    groups w' !! "G1" = Some g' ∧
    stored engine0 g' "Actors" = Some (VObj firstRoster) ∧
    stored engine0 g' "NextActorNr" = Some (VNum 2).
Proof.
  exact (create_needs_list engine0 (host (VStr "U1") "t1") (createEvent 2 0)
           {| groups := ∅; titleData := ∅ |} eq_refl eq_refl).
Defined.

Lemma create_after_init_witness :
  ∃ w', RoomCreated engine0 (host (VStr "U1") "t1") (createEvent 2 0)
          (InitGameList engine0 (host (VStr "U1") "t1") {| groups := ∅; titleData := ∅ |}).2
        = (inr OK, w').
Proof.
  apply (create_after_init engine0 (host (VStr "U1") "t1") (createEvent 2 0)
           {| groups := ∅; titleData := ∅ |}); vm_compute; reflexivity.
Defined.


(** U1 leaving G1. *)
Lemma leave_only_own_actor_witness :
  ∃ a user inactive,
    firstRoster !! "1" = Some a ∧
    get engine0 a "UserId" = inr user ∧
    strict_eq engine0 user (VStr "U1") = true ∧
    get engine0 a "Inactive" = inr inactive ∧
    strict_eq engine0 inactive (VBool true) = false.
Proof.
  apply (leave_only_own_actor engine0 (host (VStr "U1") "t2")
           (leaveEvent "LeaveRequest" "101" "U1" 1 false) (created engine0 2 0)
           OK (emptied engine0) (group (created engine0 2 0) "G1") firstRoster);
    vm_compute; reflexivity.
Defined.

(** Closing G1 with actor count 0 while it holds two actors. *)
Lemma close_failure_changes_nothing_witness :
  groups (RoomClosed engine0 (host VUndef "t3") (closeEvent 0) (full engine0)).2
  = groups (full engine0).
Proof.
  apply (close_failure_changes_nothing engine0 (host VUndef "t3") (closeEvent 0)
           (full engine0) countMismatch).
  - vm_compute; reflexivity.
  - vm_compute; discriminate.
Defined.

(** Closing G1 once U1 has left it for good. *)
Lemma close_success_witness :
  ∃ list idx,
    creatorList engine0 (group (emptied engine0) "G1") = Some list ∧
    groups (emptied engine0) !! list = Some idx ∧
    groups (RoomClosed engine0 (host VUndef "t3") (closeEvent 0) (emptied engine0)).2
    = delete "G1" (<[list := delete "G1" idx]> (groups (emptied engine0))) ∧
    titleData (RoomClosed engine0 (host VUndef "t3") (closeEvent 0) (emptied engine0)).2
    = titleData (emptied engine0).
Proof.
  apply (close_success engine0 (host VUndef "t3") (closeEvent 0) (emptied engine0) OK);
    vm_compute; reflexivity.
Defined.

(** Saving G1 with its creator in it. *)
Lemma save_success_witness :
  ∃ list idx entry,
    creatorList engine0 (group (created engine0 2 0) "G1") = Some list ∧
    groups (created engine0 2 0) !! list = Some idx ∧
    groups (saved engine0)
    = delete "G1"
        (<[list := <["G1" := JSON_stringify (VObj entry)]> idx]>
           (groups (created engine0 2 0))) ∧
    entry !! "State" = Some gameState ∧
    (∀ k, k ≠ "State" → k ≠ "SaveEvents" →
          entry !! k = stored engine0 (group (created engine0 2 0) "G1") k) ∧
    titleData (saved engine0) = titleData (created engine0 2 0).
Proof.
  apply (save_success engine0 (host VUndef "t2") (saveEvent 1 gameState)
           (created engine0 2 0) OK (saved engine0) (group (created engine0 2 0) "G1"));
    vm_compute; reflexivity.
Defined.

(** The list of U1 once G1 has been saved, and right after its creation. *)
Lemma game_list_of_saved_games_witness :
  GetGameList engine0 (host (VStr "U1") "t3") inMapOrder listEvent (saved engine0)
  = (inr (listing (omap (ownSavedGame engine0 (host (VStr "U1") "t3"))
                     (group (saved engine0) "U1_GamesList"))),
     saved engine0).
Proof.
  apply (game_list_of_saved_games engine0 (host (VStr "U1") "t3") inMapOrder listEvent
           (saved engine0) (group (saved engine0) "U1_GamesList")).
  - reflexivity.
  - vm_compute; reflexivity.
  - apply (bool_decide_unpack
             (map_Forall (λ (_ : string) v,
                            is_Some (ownSavedGame engine0 (host (VStr "U1") "t3") v))
                (group (saved engine0) "U1_GamesList"))).
    vm_compute. exact I.
Defined.

Lemma game_list_needs_creator_list_witness :
  ∃ code m w',
    GetGameList engine0 (host (VStr "U1") "t3") inMapOrder listEvent (created engine0 2 0)
    = (inr (reply code m), w') ∧
    (code = 1 ∨ code = -1)%Z.
Proof.
  apply (game_list_needs_creator_list engine0 (host (VStr "U1") "t3") inMapOrder
           listEvent (created engine0 2 0) (group (created engine0 2 0) "U1_GamesList")
           "G1" (default VUndef (group (created engine0 2 0) "U1_GamesList" !! "G1"))
           VUndef); vm_compute; reflexivity.
Defined.

Lemma created_game_not_listed_witness :
  ∃ code m w'',
    GetGameList engine0 (host (VStr "U1") "t1") inMapOrder listEvent (created engine0 2 0)
    = (inr (reply code m), w'') ∧
    (code = 1 ∨ code = -1)%Z.
Proof.
  apply (created_game_not_listed engine0 (host (VStr "U1") "t1") inMapOrder
           (createEvent 2 0) listEvent store0 OK (created engine0 2 0));
    vm_compute; reflexivity.
Defined.

(** Two moves of U1, three seconds apart. *)
Lemma move_accepted_witness :
  let p' := (processPlayerMove engine0 seconds (host (VStr "U1") "t1") 20000
               (VObj {[ "x" := VNum 1 ]}) nobody).2 in
  statistics p' = <["U1" := <["movesMade" := 1%Z]> (statisticsOf nobody "U1")]> (statistics nobody) ∧
  internalDataOf p' "U1" !! "last_move_timestamp" = Some (VStr "20") ∧
  ∀ id', id' ≠ "U1" → internalData p' !! id' = internalData nobody !! id'.
Proof.
  apply (move_accepted engine0 seconds (host (VStr "U1") "t1") 20000
           (VObj {[ "x" := VNum 1 ]}) nobody).
  vm_compute; reflexivity.
Defined.

Lemma move_refused_witness :
  (true = false ↔ tooEarly engine0 seconds (host (VStr "U1") "t1") 20000 nobody) ∧
  (true = false →
   (processPlayerMove engine0 seconds (host (VStr "U1") "t1") 20000
      (VObj {[ "x" := VNum 1 ]}) nobody).2 = nobody).
Proof.
  apply (move_refused engine0 seconds (host (VStr "U1") "t1") 20000
           (VObj {[ "x" := VNum 1 ]}) nobody).
  vm_compute; reflexivity.
Defined.

Lemma next_move_too_early_witness :
  let p1 := (processPlayerMove engine0 seconds (host (VStr "U1") "t1") 20000
               (VObj {[ "x" := VNum 1 ]}) nobody).2 in
  updatePlayerMove engine0 seconds (host (VStr "U1") "t2") 23000
    (VObj {[ "x" := VNum 2 ]}) p1
  = (false, p1) ∧
  ∀ args, (RoomEventRaised engine0 seconds (host (VStr "U1") "t2") 23000 args p1).2 = p1.
Proof.
  apply (next_move_too_early engine0 seconds (host (VStr "U1") "t1") 20000
           (VObj {[ "x" := VNum 1 ]}) nobody _ 23000 (VObj {[ "x" := VNum 2 ]}) 20000).
  - vm_compute; reflexivity.
  - vm_compute; reflexivity.
  - lia.
Defined.


Lemma saved_game_listed_witness :
  ∃ data,
    GetGameList engine0 (host (VStr "U1") "t3") inMapOrder listEvent (kept engine0)
    = (inr (listing data), kept engine0) ∧
    data !! "G1"
    = Some (VObj {[ "ActorNr" := VNum 1;
                    "Properties" := json_norm (prop customState "CustomProperties") ]}).
Proof.
  apply (saved_game_listed engine0 (host (VStr "U1") "t3") (host VUndef "t2") inMapOrder
           (saveEvent 1 (VObj customState)) listEvent (created engine0 2 0) OK
           (kept engine0) (group (created engine0 2 0) "G1")
           (group (created engine0 2 0) "U1_GamesList") firstCreation (VStr "U1")
           customState).
  1-9: vm_compute; reflexivity.
  - vm_compute; discriminate.
  - apply (bool_decide_unpack
             (map_Forall (λ (k : string) v,
                            k = roomOf engine0 (saveEvent 1 (VObj customState))
                            ∨ is_Some (ownSavedGame engine0 (host (VStr "U1") "t3") v))
                (group (created engine0 2 0) "U1_GamesList"))).
    vm_compute. exact I.
  - reflexivity.
Defined.

(** The rejoin of U1, and the Load of the saved G1. *)
Lemma rejoin_never_succeeds_witness :
  ResultCode (unexpected "TypeError: Cannot read property '1' of undefined") ≠ 0%Z ∧
  groups (away engine0) = groups (away engine0).
Proof.
  apply (rejoin_never_succeeds engine0 (host (VStr "U1") "t3") (joinEvent "U1" 1)
           (away engine0) (group (away engine0) "G1") (createOptions 2 60000)
           (VNum 60000) (VNum 2)); vm_compute; reflexivity.
Defined.

Lemma load_never_succeeds_witness :
  ResultCode (unexpected "TypeError: Cannot read property 'UserId' of undefined") ≠ 0%Z.
Proof.
  apply (load_never_succeeds engine0 (host (VStr "U1") "t3") (loadEvent false)
           (saved engine0) _
           (RoomCreated engine0 (host (VStr "U1") "t3") (loadEvent false) (saved engine0)).2).
  - vm_compute; reflexivity.
  - vm_compute; discriminate.
  - vm_compute; reflexivity.
Defined.
